(** * A chat-completions to image-generation adapter, verified

    Shallow embedding of the translation core of the Deno adapter
    ([detectProvider], [clamp], [coerceMessagePayload], [callArk],
    [callSiliconFlow] and the tail of [handleChatCompletions]) together with
    the properties its specification states about it.

    Conventions of the embedding.
    - A JavaScript string is the list of its UTF-16 code units.
    - A JavaScript number that can reach the code is a value produced by
      [JSON.parse] or by a numeric literal: a finite double or an infinity,
      never NaN.  The code only compares and selects such numbers, so they
      are embedded as extended rationals (every finite double is one).
    - A value of TypeScript type [unknown] or [any] is a JSON value; an
      object is a finite map from property names to JSON values and a
      property that is absent reads as [None] (JavaScript's [undefined]).
    - Parameters are taken at their declared TypeScript types: a
      [ChatMessage] has a string role and a content that is a string or an
      array of records, an [OpenAIRequest] has its declared optional fields
      and an index signature of [unknown] extras.
    - [throw] is an explicit outcome, [Thrown]; the network and the clock are
      inputs of the functions that use them.

    The functions are those of the later revision, the one with the model
    list.  [sf-adapter.ts] differs from it in the response headers, which are
    not embedded, and in reading a chunk's type, [chunk?.type] against
    [(chunk as ...).type]: a chunk that is JSON's [null] lies outside the
    declared type of a chunk, and the functions on any JSON history
    ([coerceAnyPayload] and what it is made of) embed what each revision
    does with it. *)

From stdpp Require Import gmap list.
From Stdlib Require Import QArith String Ascii DecimalString.

Set Warnings "-register-all".

Local Open Scope Z_scope.

(** ** Strings *)

Definition jsstring := list N.

(** The code units of an ASCII literal. *)
Definition lit (s : string) : jsstring :=
  map N_of_ascii (list_ascii_of_string s).

(** [String.prototype.startsWith] *)
Fixpoint startsWith (s p : jsstring) {struct p} : bool :=
  match p, s with
  | [], _ => true
  | _ :: _, [] => false
  | a :: p', b :: s' => if decide (a = b) then startsWith s' p' else false
  end.

(** [String.prototype.includes] *)
Fixpoint includes (s p : jsstring) : bool :=
  startsWith s p ||
  match s with
  | [] => false
  | _ :: s' => includes s' p
  end.

(** WhiteSpace and LineTerminator code points of ECMAScript, the ones
    [String.prototype.trim] strips: TAB, LF, VT, FF, CR, SP, NBSP, the
    Unicode space separators, LS, PS and ZWNBSP. *)
Definition isWhiteSpace (c : N) : bool :=
  ((9 <=? c) && (c <=? 13) || (c =? 32) || (c =? 160) || (c =? 5760) ||
   (8192 <=? c) && (c <=? 8202) || (c =? 8232) || (c =? 8233) ||
   (c =? 8239) || (c =? 8287) || (c =? 12288) || (c =? 65279))%N.

Fixpoint trimStart (s : jsstring) : jsstring :=
  match s with
  | [] => []
  | c :: s' => if isWhiteSpace c then trimStart s' else s
  end.

Definition trimEnd (s : jsstring) : jsstring := rev (trimStart (rev s)).

(** [String.prototype.trim] *)
Definition trim (s : jsstring) : jsstring := trimEnd (trimStart s).

(** Truthiness of a string: the empty string is the only falsy one. *)
Definition truthy_string (s : jsstring) : bool :=
  match s with
  | [] => false
  | _ :: _ => true
  end.

(** A substring occurrence, as a proposition. *)
Definition occurs_in (p s : jsstring) : Prop :=
  exists before after, s = before ++ p ++ after.

(** ** Numbers *)

Inductive number :=
| NegInfinity
| Finite (q : Q)
| Infinity.

Definition num_leb (a b : number) : bool :=
  match a, b with
  | NegInfinity, _ => true
  | _, Infinity => true
  | Finite x, Finite y => Qle_bool x y
  | _, _ => false
  end.

Definition num_le (a b : number) : Prop := num_leb a b = true.
Definition num_lt (a b : number) : Prop := num_leb b a = false.

(** [Math.min] and [Math.max] on two arguments, neither of them NaN. *)
Definition Math_min (a b : number) : number := if num_leb b a then b else a.
Definition Math_max (a b : number) : number := if num_leb a b then b else a.

(** Truthiness of a number: zero is the only falsy one (NaN aside). *)
Definition truthy_number (x : number) : bool :=
  match x with
  | Finite q => negb (Qeq_bool q 0)
  | _ => true
  end.

Definition of_Z (z : Z) : number := Finite (inject_Z z).

(** The double nearest to one tenth, which is what the literal [0.1] denotes. *)
Definition one_tenth : number :=
  Finite (3602879701896397 # 36028797018963968).

(** [function clamp(value, min, max)] *)
Definition clamp (value min max : number) : number :=
  Math_max min (Math_min max value).

(** ** JSON values *)

Inductive value :=
| JNull
| JBool (b : bool)
| JNum (x : number)
| JStr (s : jsstring)
| JArr (items : list value)
| JObj (fields : gmap jsstring value).

Abbreviation object := (gmap jsstring value).

(** [v?.k]: reading property [k] of a parsed JSON value.  Only objects carry
    the properties the code asks for; on [null] the optional chaining gives
    [undefined], as every primitive and every array does. *)
Definition getField (v : value) (k : jsstring) : option value :=
  match v with
  | JObj o => o !! k
  | _ => None
  end.

(** ** Provider routing *)

Inductive provider := ark | siliconflow.

Definition detectProvider (model : option jsstring) : provider :=
  match model with
  | None => ark
  | Some model =>
      if negb (truthy_string model) then ark
      else if startsWith model (lit "Qwen/")
              || startsWith model (lit "Kwai-Kolors/")
              || includes model (lit "siliconflow")
      then siliconflow
      else ark
  end.

(** The condition under which a model name is routed to SiliconFlow. *)
Definition siliconflow_model (m : jsstring) : Prop :=
  lit "Qwen/" `prefix_of` m \/ lit "Kwai-Kolors/" `prefix_of` m \/
  occurs_in (lit "siliconflow") m.

(** ** Outcomes *)

(** An HTTP response of the adapter: its status and its body before
    [JSON.stringify]. *)
Record Response := {
  status : Z;
  body : value;
}.

(** What a [throw] can carry: an [Error] with its message (the [SyntaxError]
    of [res.json()] on a body that is not JSON is one) or a [Response]. *)
Inductive exception :=
| Error (message : jsstring)
| ThrownResponse (r : Response).

Inductive completion (A : Type) :=
| Returned (a : A)
| Thrown (e : exception).

Arguments Returned {A} a.
Arguments Thrown {A} e.

(** ** Message interpreter *)

Inductive MessageContent :=
| ContentString (s : jsstring)
| ContentArray (chunks : list object).

Record ChatMessage := {
  role : jsstring;
  content : MessageContent;
}.

Record ProviderPayload := {
  prompt : jsstring;
  dataUrls : list jsstring;
  httpImages : list jsstring;
}.

(** [v === "literal"] for a property that may be absent. *)
Definition is_literal (v : option value) (s : jsstring) : bool :=
  match v with
  | Some (JStr t) => bool_decide (t = s)
  | _ => false
  end.

(** The first [if] of the chunk loop:
    [type === "text" && typeof chunk.text === "string"]. *)
Definition readText (payload : ProviderPayload) (chunk : object) : ProviderPayload :=
  match chunk !! lit "text" with
  | Some (JStr text) =>
      if is_literal (chunk !! lit "type") (lit "text")
      then {| prompt := trim text;
              dataUrls := dataUrls payload;
              httpImages := httpImages payload |}
      else payload
  | _ => payload
  end.

(** The second [if] of the chunk loop: [type === "image_url"], [image_url]
    a non-null object and [image_url.url] a string.  An array passes the
    [typeof] test as well, but has no [url] property. *)
Definition readImage (payload : ProviderPayload) (chunk : object) : ProviderPayload :=
  match chunk !! lit "image_url" with
  | Some (JObj image_url) =>
      if is_literal (chunk !! lit "type") (lit "image_url") then
        match image_url !! lit "url" with
        | Some (JStr url) =>
            if startsWith url (lit "data:")
            then {| prompt := prompt payload;
                    dataUrls := dataUrls payload ++ [url];
                    httpImages := httpImages payload |}
            else {| prompt := prompt payload;
                    dataUrls := dataUrls payload;
                    httpImages := httpImages payload ++ [url] |}
        | _ => payload
        end
      else payload
  | _ => payload
  end.

(** The body of [for (const chunk of content)]. *)
Definition readChunk (payload : ProviderPayload) (chunk : object) : ProviderPayload :=
  readImage (readText payload chunk) chunk.

(** What one user message does to the payload. *)
Definition readContent (payload : ProviderPayload) (c : MessageContent) : ProviderPayload :=
  match c with
  | ContentString s =>
      {| prompt := trim s;
         dataUrls := dataUrls payload;
         httpImages := httpImages payload |}
  | ContentArray chunks => foldl readChunk payload chunks
  end.

(** The backward loop over the messages, on the messages listed from the
    most recent to the oldest; [continue] on a role other than "user",
    [break] as soon as the prompt is truthy. *)
Fixpoint scanMessages (recent_first : list ChatMessage) (payload : ProviderPayload)
  : ProviderPayload :=
  match recent_first with
  | [] => payload
  | m :: older =>
      if bool_decide (role m = lit "user") then
        let payload := readContent payload (content m) in
        if truthy_string (prompt payload) then payload
        else scanMessages older payload
      else scanMessages older payload
  end.

Definition emptyPayload : ProviderPayload :=
  {| prompt := []; dataUrls := []; httpImages := [] |}.

(** The message of the [Error] thrown when no prompt was found. *)
Definition promptErrorMessage : jsstring :=
  [26080; 27861; 20174; 29992; 25143; 28040; 24687; 20013; 35299; 26512;
   20986]%N ++ lit " prompt " ++ [25991; 26412]%N.

Definition coerceMessagePayload (messages : list ChatMessage)
  : completion ProviderPayload :=
  let payload := scanMessages (reverse messages) emptyPayload in
  if truthy_string (prompt payload) then Returned payload
  else Thrown (Error promptErrorMessage).

(** What a user message contributes when read on its own. *)
Definition ownPayload (m : ChatMessage) : ProviderPayload :=
  readContent emptyPayload (content m).

(** A user message that yields a prompt, and one that does not. *)
Definition is_user (m : ChatMessage) : Prop := role m = lit "user".
Definition gives_prompt (m : ChatMessage) : Prop :=
  is_user m /\ prompt (ownPayload m) <> [].
Definition gives_no_prompt (m : ChatMessage) : Prop :=
  is_user m -> prompt (ownPayload m) = [].

(** The images of the user messages of [ms], in the order of [ms]. *)
Definition userDataUrls (ms : list ChatMessage) : list jsstring :=
  List.concat ((fun m => dataUrls (ownPayload m)) <$> filter is_user ms).
Definition userHttpImages (ms : list ChatMessage) : list jsstring :=
  List.concat ((fun m => httpImages (ownPayload m)) <$> filter is_user ms).

Definition isDataUrl (url : jsstring) : bool := startsWith url (lit "data:").

(** The URL of a well-formed image reference
    [{type: "image_url", image_url: {url: <string>}}]. *)
Definition image_reference (chunk : object) (url : jsstring) : Prop :=
  chunk !! lit "type" = Some (JStr (lit "image_url")) /\
  exists image_url : object,
    chunk !! lit "image_url" = Some (JObj image_url) /\
    image_url !! lit "url" = Some (JStr url).

Definition imageReferenceUrl (chunk : object) : option jsstring :=
  match chunk !! lit "type", chunk !! lit "image_url" with
  | Some (JStr t), Some (JObj image_url) =>
      match image_url !! lit "url" with
      | Some (JStr url) => if bool_decide (t = lit "image_url") then Some url else None
      | _ => None
      end
  | _, _ => None
  end.

(** A chunk that is neither a text chunk nor an image reference. *)
Definition other_chunk (chunk : object) : Prop :=
  chunk !! lit "type" <> Some (JStr (lit "text")) /\
  chunk !! lit "type" <> Some (JStr (lit "image_url")).

Definition only_other_content (m : ChatMessage) : Prop :=
  exists chunks, content m = ContentArray chunks /\ Forall other_chunk chunks.

(** The two chunk shapes a client sends, as objects. *)
Definition textChunk (text : jsstring) : object :=
  {[ lit "type" := JStr (lit "text"); lit "text" := JStr text ]}.

Definition imageChunk (url : jsstring) : object :=
  {[ lit "type" := JStr (lit "image_url");
     lit "image_url" := JObj {[ lit "url" := JStr url ]} ]}.

Definition userText (s : jsstring) : ChatMessage :=
  {| role := lit "user"; content := ContentString s |}.

Definition userChunks (chunks : list object) : ChatMessage :=
  {| role := lit "user"; content := ContentArray chunks |}.

(** ** Requests *)

(** [interface OpenAIRequest]: the declared fields, and the index signature
    [[extra: string]: unknown] as an object of further properties. *)
Record OpenAIRequest := {
  req_model : option jsstring;
  req_messages : list ChatMessage;
  req_n : option number;
  req_size : option jsstring;
  req_seed : option number;
  req_stream : option bool;
  req_image : option (list jsstring);
  req_extra : object;
}.

Definition ARK_API_URL : jsstring :=
  lit "https://ark.cn-beijing.volces.com/api/v3/images/generations".
Definition SILICONFLOW_API_URL : jsstring :=
  lit "https://api.siliconflow.cn/v1/images/generations".

(** [requestBody.model ?? "doubao-seedream-4-0-250828"] *)
Definition arkModel (requestBody : OpenAIRequest) : jsstring :=
  default (lit "doubao-seedream-4-0-250828") (req_model requestBody).

(** [const n = requestBody.n ? clamp(requestBody.n, 1, 4) : undefined] *)
Definition arkCount (requestBody : OpenAIRequest) : option number :=
  match req_n requestBody with
  | Some n => if truthy_number n then Some (clamp n (Finite 1) (Finite 4)) else None
  | None => None
  end.

(** The request body [callArk] sends. *)
Definition arkRequest (requestBody : OpenAIRequest) (payload : ProviderPayload) : object :=
  let size := default (lit "1024x1024") (req_size requestBody) in
  let n := arkCount requestBody in
  let truthy_n := from_option truthy_number false n in
  let arkRequest : object :=
    <[lit "model" := JStr (arkModel requestBody)]> (
    <[lit "prompt" := JStr (prompt payload)]> (
    <[lit "image" := JArr (JStr <$> httpImages payload)]> (
    <[lit "sequential_image_generation" :=
        JStr (if truthy_n then lit "auto" else lit "disabled")]> (
    <[lit "response_format" := JStr (lit "b64_json")]> (
    <[lit "size" := JStr size]> (
    <[lit "seed" := JNum (default (Finite (-1)) (req_seed requestBody))]> (
    <[lit "stream" := JBool false]> (
    <[lit "watermark" := JBool false]> ∅)))))))) in
  match n with
  | Some max_images =>
      if truthy_number max_images then
        <[lit "sequential_image_generation_options" :=
            JObj {[ lit "max_images" := JNum max_images ]}]> arkRequest
      else arkRequest
  | None => arkRequest
  end.

(** [requestBody.model ?? "Qwen/Qwen-Image"] *)
Definition siliconFlowModel (requestBody : OpenAIRequest) : jsstring :=
  default (lit "Qwen/Qwen-Image") (req_model requestBody).

(** [typeof requestBody.k === "string" ? requestBody.k : undefined] and its
    numeric counterpart, for a property of the index signature. *)
Definition extraString (requestBody : OpenAIRequest) (k : jsstring) : option jsstring :=
  match req_extra requestBody !! k with
  | Some (JStr s) => Some s
  | _ => None
  end.

Definition extraNumber (requestBody : OpenAIRequest) (k : jsstring) : option number :=
  match req_extra requestBody !! k with
  | Some (JNum x) => Some x
  | _ => None
  end.

(** [if (typeof v === "number") body.k = clamp(v, min, max)] *)
Definition setClamped (k : jsstring) (v : option number) (min max : number)
    (body : object) : object :=
  match v with
  | Some x => <[k := JNum (clamp x min max)]> body
  | None => body
  end.

(** The request body [callSiliconFlow] sends. *)
Definition siliconFlowRequest (requestBody : OpenAIRequest) (payload : ProviderPayload)
  : object :=
  let model := siliconFlowModel requestBody in
  let n := clamp (default (Finite 1) (req_n requestBody)) (Finite 1) (Finite 4) in
  let body : object :=
    <[lit "model" := JStr model]> (
    <[lit "prompt" := JStr (prompt payload)]> (
    <[lit "batch_size" := JNum n]> ∅)) in
  let overrideSize :=
    match req_size requestBody with
    | Some s => Some s
    | None => extraString requestBody (lit "image_size")
    end in
  let body :=
    <[lit "image_size" :=
        JStr (default (if startsWith model (lit "Kwai-Kolors/")
                       then lit "1024x1024" else lit "1328x1328") overrideSize)]> body in
  let negative := extraString requestBody (lit "negative_prompt") in
  let body :=
    match negative with
    | Some s => if truthy_string s then <[lit "negative_prompt" := JStr s]> body else body
    | None => body
    end in
  let body :=
    setClamped (lit "seed") (req_seed requestBody) (Finite 0) (Finite 9999999999) body in
  let body :=
    setClamped (lit "num_inference_steps")
      (extraNumber requestBody (lit "num_inference_steps")) (Finite 1) (Finite 100) body in
  let body :=
    setClamped (lit "guidance_scale")
      (extraNumber requestBody (lit "guidance_scale")) (Finite 0) (Finite 20) body in
  let body :=
    setClamped (lit "cfg") (extraNumber requestBody (lit "cfg")) one_tenth (Finite 20) body in
  match dataUrls payload with
  | first :: _ => <[lit "image" := JStr first]> body
  | [] => body
  end.

(** ** Responses of the providers *)

(** What [res.json()] gives: the parsed body, or the message of the
    [SyntaxError] it rejects with when the body is not JSON. *)
Inductive parsed :=
| Parsed (v : value)
| NotJSON (message : jsstring).

(** What [fetch] resolves to: the status, the body as text, and the body as
    [res.json()] reads it. *)
Record FetchResponse := {
  res_status : Z;
  res_text : jsstring;
  res_json : parsed;
}.

(** [res.ok]: the status is in the range 200-299. *)
Definition res_ok (res : FetchResponse) : bool :=
  (200 <=? res_status res) && (res_status res <=? 299).

(** An element of the result list, [{image_url: {url}, size}]. *)
Record GeneratedImage := {
  image_url : jsstring;
  image_size : option jsstring;
}.

(** The object both [callArk] and [callSiliconFlow] return. *)
Record CallResult := {
  data : list GeneratedImage;
  usage : option value;
  created : number;
  result_model : jsstring;
  timings : option value;
  result_seed : option value;
}.

(** The [url] of the mapping callback: the [url] property when it is a
    string, else the [b64_json] property wrapped as a data URI. *)
Definition imageUrl (img : value) : option jsstring :=
  match getField img (lit "url") with
  | Some (JStr url) => Some url
  | _ =>
      match getField img (lit "b64_json") with
      | Some (JStr b64_json) => Some (lit "data:image/png;base64," ++ b64_json)
      | _ => None
      end
  end.

(** The mapping callback of [callArk]; [None] is the [undefined] that
    [filter(Boolean)] removes. *)
Definition arkImage (img : value) : option GeneratedImage :=
  match imageUrl img with
  | Some url =>
      if truthy_string url then
        Some {| image_url := url;
                image_size :=
                  match getField img (lit "size") with
                  | Some (JStr s) => Some s
                  | _ => None
                  end |}
      else None
  | None => None
  end.

(** The mapping callback of [callSiliconFlow]. *)
Definition siliconFlowImage (img : value) : option GeneratedImage :=
  match imageUrl img with
  | Some url =>
      if truthy_string url then Some {| image_url := url; image_size := None |}
      else None
  | None => None
  end.

(** [Array.isArray(v?.k) ? v.k.map(f).filter(Boolean) : []] *)
Definition mapImages (f : value -> option GeneratedImage) (v : value) (k : jsstring)
  : list GeneratedImage :=
  match getField v k with
  | Some (JArr items) => omap f items
  | _ => []
  end.

(** [Math.floor(Date.now() / 1000)], the clock read in milliseconds. *)
Definition nowSeconds (now : Z) : number := of_Z (now / 1000).

(** What [callArk] returns for the parsed response [arkData]. *)
Definition arkResult (requestBody : OpenAIRequest) (arkData : value) (now : Z)
  : CallResult :=
  {| data := mapImages arkImage arkData (lit "data");
     usage := getField arkData (lit "usage");
     created :=
       match getField arkData (lit "created") with
       | Some (JNum c) => c
       | _ => nowSeconds now
       end;
     result_model := arkModel requestBody;
     timings := None;
     result_seed := None |}.

(** What [callSiliconFlow] returns for the parsed response [data]. *)
Definition siliconFlowResult (requestBody : OpenAIRequest) (response : value) (now : Z)
  : CallResult :=
  {| data := mapImages siliconFlowImage response (lit "images");
     usage := None;
     created := nowSeconds now;
     result_model := siliconFlowModel requestBody;
     timings := getField response (lit "timings");
     result_seed := getField response (lit "seed") |}.

(** The statuses with which [new Response] refuses a body. *)
Definition nullBodyStatus (s : Z) : bool :=
  bool_decide (s ∈ [101; 103; 204; 205; 304]).

(** The decimal digits of an integer, as a template literal prints it. *)
Definition decimal (z : Z) : jsstring := lit (NilEmpty.string_of_int (Z.to_int z)).

(** What [new Response(body, { status })] does with a body that is not
    [null]: a status other than 101 outside 200-599 is a [RangeError], a
    null-body status a [TypeError]; [None] when the response is built.  The
    wording of the two messages is Deno's. *)
Definition responseRefusal (s : Z) : option jsstring :=
  if ((s <? 200) || (599 <? s)) && negb (s =? 101) then
    Some (lit "The status provided (" ++ decimal s ++
          lit ") is not equal to 101 and outside the range [200, 599]")
  else if nullBodyStatus s then
    Some (lit "Response with null body status cannot have body")
  else None.

(** The part of a provider call that follows [fetch]: a status outside
    200-299 throws a [Response] with that status and the body text, unless
    [new Response] itself throws when it is built; a body that is not JSON
    makes [res.json()] throw, any parsed body is normalised. *)
Definition afterFetch (normalise : value -> CallResult) (res : FetchResponse)
  : completion CallResult :=
  if negb (res_ok res) then
    match responseRefusal (res_status res) with
    | Some message => Thrown (Error message)
    | None =>
        Thrown (ThrownResponse
                  {| status := res_status res;
                     body := JObj {[ lit "error" := JStr (res_text res) ]} |})
    end
  else
    match res_json res with
    | Parsed v => Returned (normalise v)
    | NotJSON message => Thrown (Error message)
    end.

(** The network: the URL, the bearer key and the body of a POST give a
    response. *)
Definition network := jsstring -> jsstring -> object -> FetchResponse.

Definition callArk (fetch : network) (now : Z) (apiKey : jsstring)
    (requestBody : OpenAIRequest) (payload : ProviderPayload) : completion CallResult :=
  afterFetch (fun arkData => arkResult requestBody arkData now)
    (fetch ARK_API_URL apiKey (arkRequest requestBody payload)).

Definition callSiliconFlow (fetch : network) (now : Z) (apiKey : jsstring)
    (requestBody : OpenAIRequest) (payload : ProviderPayload) : completion CallResult :=
  afterFetch (fun response => siliconFlowResult requestBody response now)
    (fetch SILICONFLOW_API_URL apiKey (siliconFlowRequest requestBody payload)).

(** ** The end of [handleChatCompletions] *)

(** Truthiness of a property. *)
Definition truthy (v : option value) : bool :=
  match v with
  | None | Some JNull => false
  | Some (JBool b) => b
  | Some (JNum x) => truthy_number x
  | Some (JStr s) => truthy_string s
  | Some (JArr _) | Some (JObj _) => true
  end.

(** A property set to [v]; [JSON.stringify] leaves out a property whose value
    is [undefined]. *)
Definition setOptional (k : jsstring) (v : option value) (o : object) : object :=
  match v with
  | Some x => <[k := x]> o
  | None => o
  end.

Definition imageJSON (img : GeneratedImage) : value :=
  JObj (setOptional (lit "size") (JStr <$> image_size img)
          {[ lit "image_url" := JObj {[ lit "url" := JStr (image_url img) ]} ]}).

(** The assistant's note, "image generation finished" in Chinese. *)
Definition completionNote : jsstring :=
  [22270; 20687; 29983; 25104; 23436; 25104]%N.

(** The body of the successful response. *)
Definition openAIResponse (uuid : jsstring) (result : CallResult) : value :=
  let metadata :=
    if truthy (timings result) then
      Some (JObj (setOptional (lit "timings") (timings result)
                    (setOptional (lit "seed") (result_seed result) ∅)))
    else None in
  let message : object :=
    setOptional (lit "metadata") metadata (
    <[lit "role" := JStr (lit "assistant")]> (
    <[lit "content" := JStr completionNote]> (
    <[lit "images" := JArr (imageJSON <$> data result)]> ∅))) in
  let choice : object :=
    <[lit "index" := JNum (Finite 0)]> (
    <[lit "message" := JObj message]> (
    <[lit "finish_reason" := JStr (lit "stop")]> ∅)) in
  JObj (setOptional (lit "usage") (usage result) (
    <[lit "id" := JStr (lit "chatcmpl-" ++ uuid)]> (
    <[lit "object" := JStr (lit "chat.completion")]> (
    <[lit "created" := JNum (created result)]> (
    <[lit "model" := JStr (result_model result)]> (
    <[lit "choices" := JArr [JObj choice]]> ∅)))))).

(** The response for the outcome of the provider call: the completion on
    success, the thrown [Response] as it is, and status 500 with the error's
    message for anything else that was thrown. *)
Definition chatCompletionResponse (uuid : jsstring) (outcome : completion CallResult)
  : Response :=
  match outcome with
  | Returned result => {| status := 200; body := openAIResponse uuid result |}
  | Thrown (ThrownResponse r) => r
  | Thrown (Error message) =>
      {| status := 500;
         body :=
           JObj {[ lit "error" :=
                     JObj {[ lit "message" := JStr message;
                             lit "type" := JStr (lit "server_error") ]} ]} |}
  end.

(** The decoding rule of the specification, as amended: the [url] property
    when it is a non-empty string; when there is no string [url], the
    [b64_json] string wrapped as a PNG data URI; nothing otherwise. *)
Definition spec_imageUrl (img : value) : option jsstring :=
  match getField img (lit "url") with
  | Some (JStr url) => if decide (url = []) then None else Some url
  | _ =>
      match getField img (lit "b64_json") with
      | Some (JStr payload) => Some (lit "data:image/png;base64," ++ payload)
      | _ => None
      end
  end.

(** Sample requests and responses. *)
Definition catRequest : OpenAIRequest :=
  {| req_model := None;
     req_messages := [userText (lit "a cat")];
     req_n := None; req_size := None; req_seed := None;
     req_stream := None; req_image := None; req_extra := ∅ |}.

Definition withCount (n : Q) (r : OpenAIRequest) : OpenAIRequest :=
  {| req_model := req_model r; req_messages := req_messages r;
     req_n := Some (Finite n); req_size := req_size r; req_seed := req_seed r;
     req_stream := req_stream r; req_image := req_image r;
     req_extra := req_extra r |}.

Definition withExtra (k : jsstring) (v : value) (r : OpenAIRequest) : OpenAIRequest :=
  {| req_model := req_model r; req_messages := req_messages r;
     req_n := req_n r; req_size := req_size r; req_seed := req_seed r;
     req_stream := req_stream r; req_image := req_image r;
     req_extra := <[k := v]> (req_extra r) |}.

Definition catPayload : ProviderPayload :=
  {| prompt := lit "a cat"; dataUrls := []; httpImages := [] |}.

Definition okResponse (v : value) : FetchResponse :=
  {| res_status := 200; res_text := []; res_json := Parsed v |}.

(** [x] lies in the closed range from [lo] to [hi]. *)
Definition within (lo hi x : number) : Prop := num_le lo x /\ num_le x hi.

(** An entry with an empty [url] and a base64 payload, and the responses of
    the two providers that carry it. *)
Definition emptyUrlEntry : value :=
  JObj {[ lit "url" := JStr []; lit "b64_json" := JStr (lit "AAAA") ]}.

Definition base64Entry : value := JObj {[ lit "b64_json" := JStr (lit "AAAA") ]}.

Definition remoteEntry : value := JObj {[ lit "url" := JStr (lit "https://x/1.png") ]}.

Definition arkResponseOf (entries : list value) : value :=
  JObj {[ lit "data" := JArr entries ]}.

Definition siliconFlowResponseOf (entries : list value) : value :=
  JObj {[ lit "images" := JArr entries ]}.

(** A SiliconFlow response that carries a creation time of its own. *)
Definition datedResponse : value :=
  JObj {[ lit "images" := JArr [remoteEntry];
          lit "created" := JNum (Finite 1700000000) ]}.

(** A network on which both providers answer 200 with an empty object. *)
Definition emptyObjectNetwork : network := fun _ _ _ => okResponse (JObj ∅).

(** ** The bearer key *)

(** Under the [i] flag a code unit matches an ASCII letter of the pattern
    when it is that letter in either case; [lower] is the lower-case one. *)
Definition sameLetter (lower c : N) : bool := ((c =? lower) || (c =? lower - 32))%N.

(** What is left of [s] after a prefix that spells [letters], lower-case
    ASCII letters, in either case. *)
Fixpoint afterLetters (letters s : jsstring) {struct letters} : option jsstring :=
  match letters, s with
  | [], _ => Some s
  | _ :: _, [] => None
  | l :: letters', c :: s' => if sameLetter l c then afterLetters letters' s' else None
  end.

(** [raw.replace(/^Bearer\s+/i, "")]: the scheme and the whole run of white
    space after it are removed; [\s] is the white space [trim] strips. *)
Definition stripBearer (raw : jsstring) : jsstring :=
  match afterLetters (lit "bearer") raw with
  | Some (c :: rest) => if isWhiteSpace c then trimStart rest else raw
  | _ => raw
  end.

(** [function readHeaderApiKey(req)], on what
    [req.headers.get("Authorization")] gives. *)
Definition readHeaderApiKey (authorization : option jsstring) : option jsstring :=
  match authorization with
  | Some raw => if truthy_string raw then Some (trim (stripBearer raw)) else None
  | None => None
  end.

(** ** The handlers *)

(** What [await req.json()] gives for the body of a request. *)
Inductive RequestJSON :=
| RequestBody (requestBody : OpenAIRequest)
| RequestNotJSON (message : jsstring).

(** What the handlers read of a [Request]: the method, the path of its URL,
    the [Authorization] header and the body. *)
Record Request := {
  http_method : jsstring;
  http_pathname : jsstring;
  http_authorization : option jsstring;
  http_json : RequestJSON;
}.

(** The two variables read through [Deno.env.get]. *)
Record Environment := {
  ARK_API_KEY : option jsstring;
  SILICONFLOW_API_KEY : option jsstring;
}.

(** [JSON.stringify({ error: text })] before it is stringified. *)
Definition errorBody (text : jsstring) : value := JObj {[ lit "error" := JStr text ]}.

(** The message of the 400 response, "the messages field must not be empty"
    in Chinese, and of the 401 response, "the API key is missing". *)
Definition emptyMessagesError : jsstring :=
  lit "messages " ++ [23383; 27573; 19981; 33021; 20026; 31354]%N.
Definition missingKeyError : jsstring := [32570; 23569]%N ++ lit " API Key".

(** [a || b] on keys: the first when it is a non-empty string. *)
Definition orKey (a b : option jsstring) : option jsstring :=
  match a with
  | Some k => if truthy_string k then a else b
  | None => b
  end.

(** [Deno.env.get] of the variable that belongs to the provider. *)
Definition envKeyOf (env : Environment) (p : provider) : option jsstring :=
  match p with
  | ark => ARK_API_KEY env
  | siliconflow => SILICONFLOW_API_KEY env
  end.

(** [function handleChatCompletions(req)] *)
Definition handleChatCompletions (fetch : network) (now : Z) (uuid : jsstring)
    (env : Environment) (req : Request) : Response :=
  if negb (bool_decide (http_method req = lit "POST")) then
    {| status := 405; body := errorBody (lit "Method not allowed") |}
  else
    match http_json req with
    | RequestNotJSON message => chatCompletionResponse uuid (Thrown (Error message))
    | RequestBody requestBody =>
        match req_messages requestBody with
        | [] => {| status := 400; body := errorBody emptyMessagesError |}
        | _ :: _ =>
            match coerceMessagePayload (req_messages requestBody) with
            | Thrown e => chatCompletionResponse uuid (Thrown e)
            | Returned payload =>
                let provider := detectProvider (req_model requestBody) in
                let envKey := envKeyOf env provider in
                let headerKey := readHeaderApiKey (http_authorization req) in
                match orKey headerKey envKey with
                | Some apiKey =>
                    if truthy_string apiKey then
                      chatCompletionResponse uuid
                        match provider with
                        | ark => callArk fetch now apiKey requestBody payload
                        | siliconflow =>
                            callSiliconFlow fetch now apiKey requestBody payload
                        end
                    else {| status := 401; body := errorBody missingKeyError |}
                | None => {| status := 401; body := errorBody missingKeyError |}
                end
            end
        end
    end.

(** A response of [handler]: [new Response(null, ...)] has no body. *)
Inductive ReplyBody :=
| EmptyBody
| JSONBody (v : value).

Record Reply := {
  reply_status : Z;
  reply_body : ReplyBody;
}.

Definition replyOf (r : Response) : Reply :=
  {| reply_status := status r; reply_body := JSONBody (body r) |}.

(** [handleOptions()]: status 200 and no body. *)
Definition handleOptions : Reply := {| reply_status := 200; reply_body := EmptyBody |}.

(** An entry of [AVAILABLE_MODELS]; [Date.UTC(2024, 0, 1) / 1000] is
    1704067200. *)
Definition modelEntry (id owned_by : jsstring) : value :=
  JObj {[ lit "id" := JStr id;
          lit "object" := JStr (lit "model");
          lit "created" := JNum (Finite 1704067200);
          lit "owned_by" := JStr owned_by ]}.

Definition AVAILABLE_MODELS : list value :=
  [ modelEntry (lit "Qwen/Qwen-Image") (lit "siliconflow");
    modelEntry (lit "Kwai-Kolors/Kolors") (lit "siliconflow");
    modelEntry (lit "doubao-seedream-4-0-250828") (lit "ark") ].

(** The three GET and HEAD routes of [handler]; [HEAD] gets the status without
    the body. *)
Definition readRoute (head : bool) (pathname : jsstring) : option Reply :=
  let answer (v : value) :=
    Some {| reply_status := 200;
            reply_body := if head then EmptyBody else JSONBody v |} in
  if bool_decide (pathname = lit "/") || bool_decide (pathname = lit "/healthz") then
    answer (JObj {[ lit "status" := JStr (lit "ok") ]})
  else if bool_decide (pathname = lit "/v1/chat/completions") then
    answer (JObj {[ lit "status" := JStr (lit "ok");
                    lit "message" :=
                      JStr (lit "Use POST with OpenAI Chat schema to generate images.") ]})
  else if bool_decide (pathname = lit "/v1/models") then
    answer (JObj {[ lit "object" := JStr (lit "list");
                    lit "data" := JArr AVAILABLE_MODELS ]})
  else None.

(** [function handler(req)] *)
Definition handler (fetch : network) (now : Z) (uuid : jsstring)
    (env : Environment) (req : Request) : Reply :=
  let method := http_method req in
  let pathname := http_pathname req in
  if bool_decide (method = lit "OPTIONS") then handleOptions
  else
    let head := bool_decide (method = lit "HEAD") in
    match (if bool_decide (method = lit "GET") || head
           then readRoute head pathname else None) with
    | Some reply => reply
    | None =>
        if bool_decide (pathname = lit "/v1/models") then
          {| reply_status := 405;
             reply_body := JSONBody (errorBody (lit "Method not allowed")) |}
        else if bool_decide (pathname = lit "/v1/chat/completions") then
          replyOf (handleChatCompletions fetch now uuid env req)
        else
          {| reply_status := 404;
             reply_body := JSONBody (errorBody (lit "Not found")) |}
    end.

(** ** Readings used to state properties *)

(** The text of a chunk that the first test of the chunk loop accepts. *)
Definition textOf (chunk : object) : option jsstring :=
  match chunk !! lit "text" with
  | Some (JStr text) =>
      if is_literal (chunk !! lit "type") (lit "text") then Some text else None
  | _ => None
  end.

(** How a client reads the images of a completion:
    [choices[0].message.images[i].image_url.url]. *)
Definition firstMessage (document : value) : option value :=
  match getField document (lit "choices") with
  | Some (JArr (choice :: _)) => getField choice (lit "message")
  | _ => None
  end.

Definition urlOfImageJSON (img : value) : option jsstring :=
  match getField img (lit "image_url") with
  | Some image_url =>
      match getField image_url (lit "url") with
      | Some (JStr url) => Some url
      | _ => None
      end
  | None => None
  end.

Definition completionImageUrls (document : value) : list jsstring :=
  match firstMessage document with
  | Some message =>
      match getField message (lit "images") with
      | Some (JArr images) => omap urlOfImageJSON images
      | _ => []
      end
  | None => []
  end.

(** The URL the handler posts to for a provider. *)
Definition providerUrl (p : provider) : jsstring :=
  match p with
  | ark => ARK_API_URL
  | siliconflow => SILICONFLOW_API_URL
  end.

(** The [owned_by] tag of a provider in the model list. *)
Definition providerTag (p : provider) : jsstring :=
  match p with
  | ark => lit "ark"
  | siliconflow => lit "siliconflow"
  end.

(** The two image lists are sorted by kind: this is kept by every step of
    the scan. *)
Definition sorted_images (p : ProviderPayload) : Prop :=
  Forall (fun u => isDataUrl u = true) (dataUrls p) /\
  Forall (fun u => isDataUrl u = false) (httpImages p).

(** Sample histories. *)
Definition assistantText (s : jsstring) : ChatMessage :=
  {| role := lit "assistant"; content := ContentString s |}.

Definition pictureHistory : list ChatMessage :=
  [ userChunks [textChunk (lit "a dog"); imageChunk (lit "https://x/0.png")];
    assistantText (lit "done");
    userChunks [imageChunk (lit "data:image/png;base64,AAAA"); textChunk (lit " a cat ")];
    userChunks [imageChunk (lit "https://x/1.png")] ].

Definition picturePayload : ProviderPayload :=
  {| prompt := lit "a cat";
     dataUrls := [lit "data:image/png;base64,AAAA"];
     httpImages := [lit "https://x/1.png"] |}.


(** The keys the body sent to Ark can have. *)
Definition arkKeys : list jsstring :=
  [ lit "model"; lit "prompt"; lit "image"; lit "sequential_image_generation";
    lit "response_format"; lit "size"; lit "seed"; lit "stream"; lit "watermark";
    lit "sequential_image_generation_options" ].

(** The keys the body sent to SiliconFlow can have. *)
Definition siliconFlowKeys : list jsstring :=
  [ lit "model"; lit "prompt"; lit "batch_size"; lit "image_size";
    lit "negative_prompt"; lit "seed"; lit "num_inference_steps";
    lit "guidance_scale"; lit "cfg"; lit "image" ].

(** The body built for a provider and the key of the image list in its
    response. *)
Definition providerRequest (p : provider) (requestBody : OpenAIRequest)
    (payload : ProviderPayload) : object :=
  match p with
  | ark => arkRequest requestBody payload
  | siliconflow => siliconFlowRequest requestBody payload
  end.



Definition chatPath : jsstring := lit "/v1/chat/completions".

(** Sample requests, environments and networks. *)
Definition postChat (authorization : option jsstring) (requestBody : OpenAIRequest)
  : Request :=
  {| http_method := lit "POST"; http_pathname := chatPath;
     http_authorization := authorization; http_json := RequestBody requestBody |}.

Definition noKeys : Environment := {| ARK_API_KEY := None; SILICONFLOW_API_KEY := None |}.

Definition arkKeyOnly : Environment :=
  {| ARK_API_KEY := Some (lit "ark-key"); SILICONFLOW_API_KEY := None |}.

Definition rateLimited : FetchResponse :=
  {| res_status := 429; res_text := lit "rate limited";
     res_json := NotJSON [] |}.

Definition rateLimitedNetwork : network := fun _ _ _ => rateLimited.

(** A network on which Ark answers with one base64 image and SiliconFlow is
    rate limited. *)
Definition arkUpNetwork : network :=
  fun url _ _ =>
    if bool_decide (url = ARK_API_URL) then okResponse (arkResponseOf [base64Entry])
    else rateLimited.




Definition arkSilentNetwork : network :=
  fun url _ _ =>
    if bool_decide (url = ARK_API_URL) then okResponse (arkResponseOf [base64Entry])
    else okResponse (JObj ∅).


Definition getModels : Request :=
  {| http_method := lit "GET"; http_pathname := lit "/v1/models";
     http_authorization := None; http_json := RequestNotJSON [] |}.

(** The call the handler makes once a request is validated and has a key. *)
Definition providerOutcome (fetch : network) (now : Z) (apiKey : jsstring)
    (requestBody : OpenAIRequest) (payload : ProviderPayload) : completion CallResult :=
  match detectProvider (req_model requestBody) with
  | ark => callArk fetch now apiKey requestBody payload
  | siliconflow => callSiliconFlow fetch now apiKey requestBody payload
  end.


Definition serverError (message : jsstring) : Response :=
  {| status := 500;
     body := JObj {[ lit "error" :=
                       JObj {[ lit "message" := JStr message;
                               lit "type" := JStr (lit "server_error") ]} ]} |}.

(** ** The message interpreter on any JSON history

    [handleChatCompletions] hands [requestBody.messages] to
    [coerceMessagePayload] as [req.json()] gave it.  The functions below read
    a history of arbitrary JSON values the way the two revisions do; they
    differ in one place, the read of a chunk's [type]. *)

Inductive revision :=
| laterRevision   (* [const type = (chunk as { type?: unknown }).type] *)
| sfAdapter.      (* [const type = chunk?.type] *)

(** The [TypeError] of a property read on [null], in V8's wording. *)
Definition nullPropertyError (property : jsstring) : exception :=
  Error (lit "Cannot read properties of null (reading '" ++ property ++ lit "')").

Definition bindCompletion {A B : Type} (c : completion A) (k : A -> completion B)
  : completion B :=
  match c with
  | Returned a => k a
  | Thrown e => Thrown e
  end.

(** The read of [type]: on [null] the later revision throws and
    [sf-adapter.ts] gets [undefined]; on anything else both read the
    property. *)
Definition chunkType (rev : revision) (chunk : value) : completion (option value) :=
  match chunk with
  | JNull =>
      match rev with
      | laterRevision => Thrown (nullPropertyError (lit "type"))
      | sfAdapter => Returned None
      end
  | _ => Returned (getField chunk (lit "type"))
  end.

(** The first [if] of the chunk loop; [chunk.text] is read only when the
    type is "text". *)
Definition readAnyText (type : option value) (payload : ProviderPayload) (chunk : value)
  : ProviderPayload :=
  if is_literal type (lit "text") then
    match getField chunk (lit "text") with
    | Some (JStr text) =>
        {| prompt := trim text;
           dataUrls := dataUrls payload;
           httpImages := httpImages payload |}
    | _ => payload
    end
  else payload.

(** The second [if] of the chunk loop; [chunk.image_url] is read only when
    the type is "image_url". *)
Definition readAnyImage (type : option value) (payload : ProviderPayload) (chunk : value)
  : ProviderPayload :=
  if is_literal type (lit "image_url") then
    match getField chunk (lit "image_url") with
    | Some (JObj image_url) =>
        match image_url !! lit "url" with
        | Some (JStr url) =>
            if startsWith url (lit "data:")
            then {| prompt := prompt payload;
                    dataUrls := dataUrls payload ++ [url];
                    httpImages := httpImages payload |}
            else {| prompt := prompt payload;
                    dataUrls := dataUrls payload;
                    httpImages := httpImages payload ++ [url] |}
        | _ => payload
        end
    | _ => payload
    end
  else payload.

(** The body of [for (const chunk of content)] on any chunk. *)
Definition readAnyChunk (rev : revision) (payload : ProviderPayload) (chunk : value)
  : completion ProviderPayload :=
  bindCompletion (chunkType rev chunk) (fun type =>
    Returned (readAnyImage type (readAnyText type payload chunk) chunk)).

(** The chunk loop: a chunk that throws ends it. *)
Fixpoint readAnyChunks (rev : revision) (payload : ProviderPayload) (chunks : list value)
  : completion ProviderPayload :=
  match chunks with
  | [] => Returned payload
  | chunk :: rest =>
      bindCompletion (readAnyChunk rev payload chunk) (fun payload =>
        readAnyChunks rev payload rest)
  end.

(** What one user message does to the payload: a string is the prompt, an
    array is read chunk by chunk, any other content is passed over. *)
Definition readAnyContent (rev : revision) (payload : ProviderPayload)
    (content : option value) : completion ProviderPayload :=
  match content with
  | Some (JStr s) =>
      Returned {| prompt := trim s;
                  dataUrls := dataUrls payload;
                  httpImages := httpImages payload |}
  | Some (JArr chunks) => readAnyChunks rev payload chunks
  | _ => Returned payload
  end.

(** The backward loop, on the messages from the most recent to the oldest;
    [messages[i].role] throws on a message that is [null]. *)
Fixpoint scanAny (rev : revision) (recent_first : list value) (payload : ProviderPayload)
  : completion ProviderPayload :=
  match recent_first with
  | [] => Returned payload
  | JNull :: _ => Thrown (nullPropertyError (lit "role"))
  | m :: older =>
      if is_literal (getField m (lit "role")) (lit "user") then
        bindCompletion (readAnyContent rev payload (getField m (lit "content")))
          (fun payload =>
             if truthy_string (prompt payload) then Returned payload
             else scanAny rev older payload)
      else scanAny rev older payload
  end.

(** [coerceMessagePayload] of a revision on any JSON history. *)
Definition coerceAnyPayload (rev : revision) (messages : list value)
  : completion ProviderPayload :=
  bindCompletion (scanAny rev (reverse messages) emptyPayload) (fun payload =>
    if truthy_string (prompt payload) then Returned payload
    else Thrown (Error promptErrorMessage)).

(** A history at the declared types, as JSON. *)
Definition contentJSON (c : MessageContent) : value :=
  match c with
  | ContentString s => JStr s
  | ContentArray chunks => JArr (JObj <$> chunks)
  end.

Definition messageJSON (m : ChatMessage) : value :=
  JObj {[ lit "role" := JStr (role m); lit "content" := contentJSON (content m) ]}.

(** A user message whose content is a list of JSON chunks. *)
Definition userJSON (chunks : list value) : value :=
  JObj {[ lit "role" := JStr (lit "user"); lit "content" := JArr chunks ]}.

(** The two histories on which the later revision stumbles: a [null] chunk
    before a text chunk, and a [null] chunk alone. *)
Definition nullThenText : list value := [userJSON [JNull; JObj (textChunk (lit "hi"))]].
Definition nullAlone : list value := [userJSON [JNull]].

(** The chunks that are objects, and whether a chunk is [null]. *)
Definition asObject (chunk : value) : option object :=
  match chunk with
  | JObj o => Some o
  | _ => None
  end.

Definition isNull (chunk : value) : bool :=
  match chunk with
  | JNull => true
  | _ => false
  end.

(** ** Facts about strings *)

Lemma startsWith_prefix (s p : jsstring) :
  startsWith s p = true <-> p `prefix_of` s.
Proof.
  revert s. induction p as [|a p IH]; intros s; simpl.
  - split; [intros _; apply prefix_nil | done].
  - destruct s as [|b s].
    + split; [done | intros H; by apply prefix_nil_not in H].
    + destruct (decide (a = b)) as [->|Hne].
      * rewrite IH. split; [apply prefix_cons | apply prefix_cons_inv_2].
      * split; [done | intros H; by apply prefix_cons_inv_1 in H].
Qed.

Lemma includes_occurs (s p : jsstring) :
  includes s p = true <-> occurs_in p s.
Proof.
  induction s as [|c s IH]; simpl.
  - rewrite orb_false_r, startsWith_prefix. split.
    + intros [k ->]. by exists [], k.
    + intros (before & after & H). symmetry in H.
      apply app_eq_nil in H as [-> H]. exists after. by rewrite H.
  - rewrite orb_true_iff, startsWith_prefix, IH. split.
    + intros [[k ->]|(before & after & ->)].
      * by exists [], k.
      * by exists (c :: before), after.
    + intros ([|b before] & after & H).
      * left. exists after. by rewrite H.
      * right. injection H as -> ->. by exists before, after.
Qed.

Lemma detectProvider_some (m : jsstring) :
  detectProvider (Some m) = siliconflow <-> siliconflow_model m.
Proof.
  unfold detectProvider, siliconflow_model.
  rewrite <- !startsWith_prefix, <- includes_occurs.
  destruct m as [|c m].
  - simpl. split; [done | intros [H|[H|H]]; discriminate H].
  - cbn [truthy_string negb].
    destruct (startsWith (c :: m) (lit "Qwen/")),
      (startsWith (c :: m) (lit "Kwai-Kolors/")),
      (includes (c :: m) (lit "siliconflow")); simpl;
      split; intros; try done; intuition discriminate.
Qed.

(** C2. Routing depends on the model field only: no model gives Ark
    (provider A); a model that starts with "Qwen/" or "Kwai-Kolors/" or
    contains "siliconflow" gives SiliconFlow (provider B), and every other
    model string gives Ark, among them "doubao-seedream-4-0-250828" and an
    unrecognised name. *)
Theorem detectProvider_routing :
  detectProvider None = ark /\
  (forall m, detectProvider (Some m) = siliconflow <-> siliconflow_model m) /\
  (forall m, detectProvider (Some m) = ark <-> ~ siliconflow_model m) /\
  detectProvider (Some (lit "Qwen/Qwen-Image")) = siliconflow /\
  detectProvider (Some (lit "Kwai-Kolors/Kolors")) = siliconflow /\
  detectProvider (Some (lit "my-siliconflow-model")) = siliconflow /\
  detectProvider (Some (lit "doubao-seedream-4-0-250828")) = ark /\
  detectProvider (Some (lit "some-unknown-model")) = ark.
Proof.
  split; [reflexivity|]. split; [apply detectProvider_some|].
  split; [|repeat split; reflexivity].
  intros m. rewrite <- detectProvider_some.
  destruct (detectProvider (Some m)); split; congruence.
Qed.

(** ** Facts about trimming *)

Lemma trimStart_split (s : jsstring) :
  exists ws, s = ws ++ trimStart s /\ Forall (fun c => isWhiteSpace c = true) ws.
Proof.
  induction s as [|c s (ws & IH & Hws)]; simpl.
  - by exists [].
  - destruct (isWhiteSpace c) eqn:Hc.
    + exists (c :: ws). split; [simpl; by f_equal | by constructor].
    + by exists [].
Qed.

Lemma trimStart_head (s : jsstring) (c : N) (rest : jsstring) :
  trimStart s = c :: rest -> isWhiteSpace c = false.
Proof.
  induction s as [|d s IH]; simpl; [done|].
  destruct (isWhiteSpace d) eqn:Hd; [done|]. by intros [= <- _].
Qed.

Lemma trimStart_idempotent (s : jsstring) : trimStart (trimStart s) = trimStart s.
Proof.
  destruct (trimStart s) as [|c rest] eqn:E; [done|].
  simpl. by rewrite (trimStart_head _ _ _ E).
Qed.

(** [trim] removes a run of white space at each end and nothing else, and
    what is left neither starts nor ends with white space. *)
Lemma trim_strips (s : jsstring) :
  exists before after,
    s = before ++ trim s ++ after /\
    Forall (fun c => isWhiteSpace c = true) before /\
    Forall (fun c => isWhiteSpace c = true) after /\
    (forall c rest, trim s = c :: rest -> isWhiteSpace c = false) /\
    (forall c front, trim s = front ++ [c] -> isWhiteSpace c = false).
Proof.
  unfold trim, trimEnd.
  destruct (trimStart_split s) as (before & Hs & Hbefore).
  destruct (trimStart_split (rev (trimStart s))) as (after & Hr & Hafter).
  exists before, (rev after). split; [|split; [done|split; [|split]]].
  - rewrite <- rev_app_distr, <- Hr, rev_involutive. exact Hs.
  - by apply List.Forall_rev.
  - intros c rest E.
    destruct (trimStart s) as [|d t] eqn:Et; [done|].
    pose proof (trimStart_head _ _ _ Et) as Hd.
    assert (Hsplit : d :: t = (c :: rest) ++ rev after).
    { rewrite <- E, <- rev_app_distr, <- Hr. by rewrite rev_involutive. }
    simpl in Hsplit. by injection Hsplit as <- _.
  - intros c front E.
    apply (f_equal (@rev N)) in E.
    rewrite rev_involutive, rev_app_distr in E. simpl in E.
    exact (trimStart_head _ _ _ E).
Qed.

(** ** Facts about the message interpreter *)

Lemma imageReferenceUrl_spec (chunk : object) (url : jsstring) :
  imageReferenceUrl chunk = Some url <-> image_reference chunk url.
Proof.
  unfold imageReferenceUrl, image_reference. split.
  - intros H.
    destruct (chunk !! lit "type") as [[| | |t| |]|] eqn:Ht; try done.
    destruct (chunk !! lit "image_url") as [[| | | | |o]|] eqn:Ho; try done.
    destruct (o !! lit "url") as [[| | |u| |]|] eqn:Hu; try done.
    destruct (bool_decide_reflect (t = lit "image_url")) as [->|]; [|done].
    injection H as <-. eauto.
  - intros (Ht & o & Ho & Hu). rewrite Ht, Ho, Hu.
    by rewrite bool_decide_eq_true_2.
Qed.

Lemma readText_images (p : ProviderPayload) (chunk : object) :
  dataUrls (readText p chunk) = dataUrls p /\
  httpImages (readText p chunk) = httpImages p.
Proof. unfold readText. by repeat case_match. Qed.

Lemma readImage_prompt (p : ProviderPayload) (chunk : object) :
  prompt (readImage p chunk) = prompt p.
Proof. unfold readImage. by repeat case_match. Qed.

Lemma readText_prompt (p p' : ProviderPayload) (chunk : object) :
  prompt p = prompt p' -> prompt (readText p chunk) = prompt (readText p' chunk).
Proof. intros H. unfold readText. by repeat case_match. Qed.

Ltac image_simpl :=
  cbn [dataUrls httpImages prompt List.filter option_list option_rect negb];
  rewrite ?app_nil_r; try done.

Ltac image_cases chunk :=
  unfold readImage, imageReferenceUrl, is_literal, isDataUrl;
  destruct (chunk !! lit "image_url") as [[| | | | |o]|];
  destruct (chunk !! lit "type") as [[| | |t| |]|];
  image_simpl;
  destruct (bool_decide (t = lit "image_url"));
  destruct (o !! lit "url") as [[| | |u| |]|];
  image_simpl;
  destruct (startsWith u (lit "data:")); image_simpl.

Lemma readImage_dataUrls (p : ProviderPayload) (chunk : object) :
  dataUrls (readImage p chunk) =
  dataUrls p ++ List.filter isDataUrl (option_list (imageReferenceUrl chunk)).
Proof. image_cases chunk. Qed.

Lemma readImage_httpImages (p : ProviderPayload) (chunk : object) :
  httpImages (readImage p chunk) =
  httpImages p ++
  List.filter (fun u => negb (isDataUrl u)) (option_list (imageReferenceUrl chunk)).
Proof. image_cases chunk. Qed.

Lemma readChunk_prompt (p p' : ProviderPayload) (chunk : object) :
  prompt p = prompt p' -> prompt (readChunk p chunk) = prompt (readChunk p' chunk).
Proof.
  intros H. unfold readChunk. rewrite !readImage_prompt. by apply readText_prompt.
Qed.

Lemma readChunk_dataUrls (p : ProviderPayload) (chunk : object) :
  dataUrls (readChunk p chunk) =
  dataUrls p ++ List.filter isDataUrl (option_list (imageReferenceUrl chunk)).
Proof.
  unfold readChunk. rewrite readImage_dataUrls.
  by destruct (readText_images p chunk) as [-> _].
Qed.

Lemma readChunk_httpImages (p : ProviderPayload) (chunk : object) :
  httpImages (readChunk p chunk) =
  httpImages p ++
  List.filter (fun u => negb (isDataUrl u)) (option_list (imageReferenceUrl chunk)).
Proof.
  unfold readChunk. rewrite readImage_httpImages.
  by destruct (readText_images p chunk) as [_ ->].
Qed.

Lemma payload_eq (p q : ProviderPayload) :
  prompt p = prompt q -> dataUrls p = dataUrls q -> httpImages p = httpImages q ->
  p = q.
Proof. destruct p, q; simpl; congruence. Qed.

Lemma foldl_readChunk_prompt (chunks : list object) (p p' : ProviderPayload) :
  prompt p = prompt p' ->
  prompt (foldl readChunk p chunks) = prompt (foldl readChunk p' chunks).
Proof.
  revert p p'. induction chunks as [|c chunks IH]; intros p p' H; simpl; [done|].
  by apply IH, readChunk_prompt.
Qed.

Lemma foldl_readChunk_dataUrls (chunks : list object) (p : ProviderPayload) :
  dataUrls (foldl readChunk p chunks) =
  dataUrls p ++ List.filter isDataUrl (omap imageReferenceUrl chunks).
Proof.
  revert p. induction chunks as [|c chunks IH]; intros p.
  - simpl. by rewrite app_nil_r.
  - cbn [foldl omap list_omap]. rewrite IH, readChunk_dataUrls.
    destruct (imageReferenceUrl c) as [u|]; image_simpl.
    destruct (isDataUrl u); image_simpl. by rewrite <- app_assoc.
Qed.

Lemma foldl_readChunk_httpImages (chunks : list object) (p : ProviderPayload) :
  httpImages (foldl readChunk p chunks) =
  httpImages p ++
  List.filter (fun u => negb (isDataUrl u)) (omap imageReferenceUrl chunks).
Proof.
  revert p. induction chunks as [|c chunks IH]; intros p.
  - simpl. by rewrite app_nil_r.
  - cbn [foldl omap list_omap]. rewrite IH, readChunk_httpImages.
    destruct (imageReferenceUrl c) as [u|]; image_simpl.
    destruct (isDataUrl u); image_simpl. by rewrite <- app_assoc.
Qed.

(** Reading a message into a payload whose prompt is still empty adds the
    message's own images and sets the message's own prompt. *)
Lemma readContent_own (p : ProviderPayload) (m : ChatMessage) :
  prompt p = [] ->
  readContent p (content m) =
  {| prompt := prompt (ownPayload m);
     dataUrls := dataUrls p ++ dataUrls (ownPayload m);
     httpImages := httpImages p ++ httpImages (ownPayload m) |}.
Proof.
  intros Hp. unfold ownPayload. destruct (content m) as [s|chunks].
  - simpl. by rewrite !app_nil_r.
  - apply payload_eq; cbn [readContent prompt dataUrls httpImages].
    + by apply foldl_readChunk_prompt.
    + by rewrite !foldl_readChunk_dataUrls.
    + by rewrite !foldl_readChunk_httpImages.
Qed.

Lemma truthy_string_true (s : jsstring) : s <> [] -> truthy_string s = true.
Proof. by destruct s. Qed.

Lemma scan_skip (l rest : list ChatMessage) (p : ProviderPayload) :
  prompt p = [] -> Forall gives_no_prompt l ->
  scanMessages (l ++ rest) p =
  scanMessages rest
    {| prompt := [];
       dataUrls := dataUrls p ++ userDataUrls l;
       httpImages := httpImages p ++ userHttpImages l |}.
Proof.
  revert p. induction l as [|m l IH]; intros p Hp Hl.
  - cbn [app]. f_equal. apply payload_eq; simpl; by rewrite ?app_nil_r.
  - apply Forall_cons in Hl as [Hm Hl]. cbn [app scanMessages].
    unfold userDataUrls, userHttpImages.
    destruct (bool_decide_reflect (role m = lit "user")) as [Hu|Hu].
    + rewrite (readContent_own _ _ Hp). cbn [prompt].
      rewrite (Hm Hu). cbn [truthy_string].
      rewrite IH by done. f_equal.
      rewrite (filter_cons_True is_user) by done.
      apply payload_eq; cbn [prompt dataUrls httpImages fmap list_fmap List.concat];
        by rewrite ?app_assoc.
    + rewrite IH by done. by rewrite (filter_cons_False is_user) by done.
Qed.

Lemma scan_hit (m : ChatMessage) (rest : list ChatMessage) (p : ProviderPayload) :
  prompt p = [] -> gives_prompt m ->
  scanMessages (m :: rest) p =
  {| prompt := prompt (ownPayload m);
     dataUrls := dataUrls p ++ dataUrls (ownPayload m);
     httpImages := httpImages p ++ httpImages (ownPayload m) |}.
Proof.
  intros Hp [Hu Hm]. cbn [scanMessages].
  rewrite bool_decide_eq_true_2 by done.
  rewrite (readContent_own _ _ Hp). cbn [prompt].
  by rewrite truthy_string_true.
Qed.

(** The extraction on a history cut at the most recent message that gives a
    prompt. *)
Lemma coerceMessagePayload_cut (older newer : list ChatMessage) (m : ChatMessage) :
  gives_prompt m -> Forall gives_no_prompt newer ->
  coerceMessagePayload (older ++ m :: newer) =
  Returned
    {| prompt := prompt (ownPayload m);
       dataUrls := userDataUrls (reverse newer) ++ dataUrls (ownPayload m);
       httpImages := userHttpImages (reverse newer) ++ httpImages (ownPayload m) |}.
Proof.
  intros Hm Hnewer. unfold coerceMessagePayload.
  rewrite reverse_app, reverse_cons, <- app_assoc. cbn [app].
  rewrite scan_skip; [|done|by apply Forall_reverse].
  rewrite scan_hit by done. cbn [prompt dataUrls httpImages app].
  rewrite truthy_string_true; [done|apply Hm].
Qed.

Lemma coerceMessagePayload_none (messages : list ChatMessage) :
  Forall gives_no_prompt messages ->
  coerceMessagePayload messages = Thrown (Error promptErrorMessage).
Proof.
  intros H. unfold coerceMessagePayload.
  rewrite <- (app_nil_r (reverse messages)).
  rewrite scan_skip; [done|done|by apply Forall_reverse].
Qed.

Lemma gives_prompt_dec (m : ChatMessage) : gives_prompt m \/ gives_no_prompt m.
Proof.
  unfold gives_prompt, gives_no_prompt.
  destruct (decide (prompt (ownPayload m) = [])) as [E|E]; [by right|].
  destruct (decide (is_user m)); [by left|by right].
Qed.

Lemma first_prompt (l : list ChatMessage) :
  Exists gives_prompt l ->
  exists l1 c l2, l = l1 ++ c :: l2 /\ Forall gives_no_prompt l1 /\ gives_prompt c.
Proof.
  induction l as [|m l IH]; intros H; [by apply Exists_nil in H|].
  destruct (gives_prompt_dec m) as [Hm|Hm].
  - by exists [], m, l.
  - apply Exists_cons in H as [H|H]; [destruct H as [Hu Hp]; by specialize (Hm Hu)|].
    destruct (IH H) as (l1 & c & l2 & -> & Hl1 & Hc).
    exists (m :: l1), c, l2. repeat split; [by constructor|apply Hc..].
Qed.

Lemma readChunk_other (p : ProviderPayload) (chunk : object) :
  other_chunk chunk -> prompt (readChunk p chunk) = prompt p.
Proof.
  intros [Htext _]. unfold readChunk. rewrite readImage_prompt.
  unfold readText, is_literal.
  destruct (chunk !! lit "text") as [[| | |text| |]|]; try done.
  destruct (chunk !! lit "type") as [[| | |t| |]|]; try done.
  destruct (bool_decide_reflect (t = lit "text")) as [->|]; done.
Qed.

Lemma foldl_readChunk_other (chunks : list object) (p : ProviderPayload) :
  Forall other_chunk chunks -> prompt (foldl readChunk p chunks) = prompt p.
Proof.
  intros H. revert p. induction H as [|c chunks Hc _ IH]; intros p; simpl; [done|].
  by rewrite IH, readChunk_other.
Qed.

Lemma only_other_content_no_prompt (m : ChatMessage) :
  only_other_content m -> prompt (ownPayload m) = [].
Proof.
  intros (chunks & Hc & Hother). unfold ownPayload. rewrite Hc.
  cbn [readContent]. by rewrite foldl_readChunk_other.
Qed.

(** ** Properties of the message interpreter *)

(** C1, as stated, fails: a user message whose string content is a single
    space has non-empty string content, yet the prompt it gives trims to the
    empty string and the extraction throws. *)
Lemma coerceMessagePayload_blank_counterexample :
  (exists m s, m ∈ [userText (lit " ")] /\ is_user m /\
               content m = ContentString s /\ s <> []) /\
  coerceMessagePayload [userText (lit " ")] = Thrown (Error promptErrorMessage).
Proof.
  split; [|reflexivity].
  exists (userText (lit " ")), (lit " ").
  repeat split; [apply list_elem_of_here|done].
Qed.

(** C1, amended. For every message history containing at least one user
    message whose string content is non-empty after trimming, the extraction
    succeeds; the prompt is non-empty and is the one given by the most recent
    user message that gives a non-empty prompt, which is that message's
    content trimmed of surrounding white space when the content is a string. *)
Theorem coerceMessagePayload_string_prompt
    (messages : list ChatMessage) (m : ChatMessage) (s : jsstring) :
  m ∈ messages -> is_user m -> content m = ContentString s -> trim s <> [] ->
  exists older c newer p,
    messages = older ++ c :: newer /\
    gives_prompt c /\ Forall gives_no_prompt newer /\
    coerceMessagePayload messages = Returned p /\
    prompt p = prompt (ownPayload c) /\ prompt p <> [] /\
    (forall t, content c = ContentString t -> prompt p = trim t).
Proof.
  intros Hin Hu Hc Hs.
  assert (Hm : gives_prompt m).
  { split; [done|]. unfold ownPayload. by rewrite Hc. }
  destruct (first_prompt (reverse messages)) as (l1 & c & l2 & Hrev & Hl1 & Hgives).
  { apply Exists_exists. exists m. split; [by apply elem_of_reverse|done]. }
  assert (Hmessages : messages = reverse l2 ++ c :: reverse l1).
  { rewrite <- (reverse_involutive messages), Hrev.
    rewrite reverse_app, reverse_cons, <- app_assoc. done. }
  eexists (reverse l2), c, (reverse l1), _.
  split; [exact Hmessages|]. split; [exact Hgives|].
  split; [by apply Forall_reverse|].
  split; [rewrite Hmessages; apply coerceMessagePayload_cut;
          [exact Hgives|by apply Forall_reverse]|].
  cbn [prompt]. split; [done|]. split; [apply Hgives|].
  intros t Ht. unfold ownPayload. by rewrite Ht.
Qed.

Lemma coerceMessagePayload_string_prompt_witness :
  let newest := userChunks [imageChunk (lit "https://x/1.png")] in
  let cat := userText (lit "  a cat ") in
  let messages := [userText (lit "a dog"); cat; newest] in
  (cat ∈ messages /\ is_user cat /\
   content cat = ContentString (lit "  a cat ") /\ trim (lit "  a cat ") <> []) /\
  exists older c newer p,
    messages = older ++ c :: newer /\
    gives_prompt c /\ Forall gives_no_prompt newer /\
    coerceMessagePayload messages = Returned p /\
    prompt p = prompt (ownPayload c) /\ prompt p <> [] /\
    (forall t, content c = ContentString t -> prompt p = trim t).
Proof.
  intros newest cat messages.
  assert (Hin : cat ∈ messages) by (apply list_elem_of_further, list_elem_of_here).
  assert (Hs : trim (lit "  a cat ") <> []) by (vm_compute; discriminate).
  split; [done|].
  exact (coerceMessagePayload_string_prompt messages cat (lit "  a cat ")
           Hin eq_refl eq_refl Hs).
Defined.

(** On chunks that are objects, the declared type of a chunk: reading a chunk
    sequence appends every well-formed image reference whose URL starts with
    "data:" to [dataUrls] and every other well-formed image reference to
    [httpImages], both in the order of the chunks; an object that is not a
    well-formed image reference adds nothing.  On a history made of one user
    message this is what the extraction returns. *)
Lemma readContent_classifies_images (payload : ProviderPayload) (chunks : list object) :
  dataUrls (readContent payload (ContentArray chunks)) =
    dataUrls payload ++ List.filter isDataUrl (omap imageReferenceUrl chunks) /\
  httpImages (readContent payload (ContentArray chunks)) =
    httpImages payload ++
    List.filter (fun u => negb (isDataUrl u)) (omap imageReferenceUrl chunks) /\
  (forall chunk url, imageReferenceUrl chunk = Some url <-> image_reference chunk url) /\
  (forall url, isDataUrl url = true <-> lit "data:" `prefix_of` url) /\
  coerceMessagePayload [userChunks chunks] =
    (if truthy_string (prompt (ownPayload (userChunks chunks))) then
       Returned
         {| prompt := prompt (ownPayload (userChunks chunks));
            dataUrls := List.filter isDataUrl (omap imageReferenceUrl chunks);
            httpImages :=
              List.filter (fun u => negb (isDataUrl u))
                (omap imageReferenceUrl chunks) |}
     else Thrown (Error promptErrorMessage)).
Proof.
  split; [apply foldl_readChunk_dataUrls|].
  split; [apply foldl_readChunk_httpImages|].
  split; [apply imageReferenceUrl_spec|].
  split; [intros url; apply startsWith_prefix|].
  destruct (prompt (ownPayload (userChunks chunks))) as [|c rest] eqn:E.
  - apply coerceMessagePayload_none. constructor; [|constructor]. by intros _.
  - cbn [truthy_string].
    assert (Hg : gives_prompt (userChunks chunks)) by (split; [done|by rewrite E]).
    pose proof (coerceMessagePayload_cut [] [] _ Hg (Forall_nil_2 _)) as H.
    cbn [app] in H. rewrite H, E.
    f_equal. apply payload_eq; cbn [prompt dataUrls httpImages]; [done|..].
    + unfold ownPayload. cbn [content userChunks readContent].
      by rewrite foldl_readChunk_dataUrls.
    + unfold ownPayload. cbn [content userChunks readContent].
      by rewrite foldl_readChunk_httpImages.
Qed.

(** On chunks that are objects: a history with no user message, or one whose
    user messages carry only chunks that are neither text nor image
    references, makes the extraction throw the prompt error; no payload is
    returned. *)
Lemma coerceMessagePayload_no_prompt (messages : list ChatMessage) :
  Forall (fun m => ~ is_user m) messages \/
  Forall (fun m => is_user m -> only_other_content m) messages ->
  coerceMessagePayload messages = Thrown (Error promptErrorMessage) /\
  forall p, coerceMessagePayload messages <> Returned p.
Proof.
  intros H.
  assert (E : coerceMessagePayload messages = Thrown (Error promptErrorMessage)).
  { apply coerceMessagePayload_none.
    destruct H as [H|H]; eapply Forall_impl; try exact H; intros m Hm Hu.
    - by destruct Hm.
    - by apply only_other_content_no_prompt, Hm. }
  split; [exact E|]. intros p. by rewrite E.
Qed.

Lemma coerceMessagePayload_no_prompt_witness :
  let audio : object := {[ lit "type" := JStr (lit "input_audio") ]} in
  let messages :=
    [ {| role := lit "system"; content := ContentString (lit "be brief") |};
      userChunks [audio];
      {| role := lit "assistant"; content := ContentString (lit "a cat") |} ] in
  (Forall (fun m => ~ is_user m) messages \/
   Forall (fun m => is_user m -> only_other_content m) messages) /\
  coerceMessagePayload messages = Thrown (Error promptErrorMessage) /\
  forall p, coerceMessagePayload messages <> Returned p.
Proof.
  intros audio messages.
  assert (H : Forall (fun m => is_user m -> only_other_content m) messages).
  { apply Forall_cons_2; [intros Hu; by vm_compute in Hu|].
    apply Forall_cons_2.
    - intros _. exists [audio]. split; [done|].
      apply Forall_cons_2; [split; by vm_compute|apply Forall_nil_2].
    - apply Forall_cons_2; [intros Hu; by vm_compute in Hu|apply Forall_nil_2]. }
  split; [by right|].
  exact (coerceMessagePayload_no_prompt messages (or_intror H)).
Defined.

(** C10. Images of the user messages that are more recent than the message
    giving the prompt, and that give no prompt themselves, are kept: the scan
    goes on past them, so the payload joins their images, most recent message
    first, to the images and the prompt of the older message.  Messages older
    than that one are not read. *)
Theorem coerceMessagePayload_keeps_recent_images
    (older newer : list ChatMessage) (m : ChatMessage) :
  gives_prompt m -> Forall gives_no_prompt newer ->
  coerceMessagePayload (older ++ m :: newer) =
  Returned
    {| prompt := prompt (ownPayload m);
       dataUrls := userDataUrls (reverse newer) ++ dataUrls (ownPayload m);
       httpImages := userHttpImages (reverse newer) ++ httpImages (ownPayload m) |}.
Proof. apply coerceMessagePayload_cut. Qed.

Lemma coerceMessagePayload_keeps_recent_images_witness :
  let older := [userChunks [textChunk (lit "a dog"); imageChunk (lit "https://x/0.png")]] in
  let m := userChunks [imageChunk (lit "data:image/png;base64,AAAA");
                       textChunk (lit " a cat ")] in
  let newer := [userChunks [imageChunk (lit "https://x/1.png")];
                {| role := lit "assistant"; content := ContentString (lit "ok") |};
                userChunks [imageChunk (lit "https://x/2.png");
                            imageChunk (lit "data:image/png;base64,BBBB")]] in
  (gives_prompt m /\ Forall gives_no_prompt newer) /\
  coerceMessagePayload (older ++ m :: newer) =
  Returned
    {| prompt := lit "a cat";
       dataUrls := [lit "data:image/png;base64,BBBB"; lit "data:image/png;base64,AAAA"];
       httpImages := [lit "https://x/2.png"; lit "https://x/1.png"] |}.
Proof.
  intros older m newer.
  assert (Hm : gives_prompt m) by (split; [reflexivity|by vm_compute]).
  assert (Hnewer : Forall gives_no_prompt newer).
  { repeat (apply Forall_cons_2;
            [first [intros _; by vm_compute | intros Hu; by vm_compute in Hu]|]).
    apply Forall_nil_2. }
  split; [done|].
  exact (coerceMessagePayload_keeps_recent_images older newer m Hm Hnewer).
Defined.

(** ** Facts about numbers and clamping *)

Lemma num_leb_refl (a : number) : num_leb a a = true.
Proof. destruct a; simpl; try done. apply Qle_bool_iff, Qle_refl. Qed.

Lemma num_leb_total (a b : number) : num_leb a b = false -> num_leb b a = true.
Proof.
  destruct a, b; simpl; try done. intros H.
  apply Qle_bool_iff, Qlt_le_weak, Qnot_le_lt. intros Hle.
  apply Qle_bool_iff in Hle. congruence.
Qed.

Lemma num_leb_trans (a b c : number) :
  num_leb a b = true -> num_leb b c = true -> num_leb a c = true.
Proof.
  destruct a, b, c; simpl; try done. rewrite !Qle_bool_iff. apply Qle_trans.
Qed.

Section Clamp.
Variables lo hi : number.
Hypothesis lo_le_hi : num_le lo hi.

Lemma clamp_within (v : number) : within lo hi (clamp v lo hi).
Proof.
  unfold within, num_le, clamp, Math_max, Math_min.
  destruct (num_leb v hi) eqn:Hv.
  - destruct (num_leb lo v) eqn:Hl; [done|]. by rewrite num_leb_refl.
  - rewrite lo_le_hi. by rewrite num_leb_refl.
Qed.

(** A value in the range is left as it is, a value outside is replaced by
    the bound it passed. *)
Lemma clamp_spec (v : number) :
  (within lo hi v -> clamp v lo hi = v) /\
  (num_lt v lo -> clamp v lo hi = lo) /\
  (num_lt hi v -> clamp v lo hi = hi).
Proof.
  unfold within, num_le, num_lt, clamp, Math_max, Math_min.
  split; [|split].
  - intros [Hl Hh]. by rewrite Hh, Hl.
  - intros Hlt. destruct (num_leb v hi) eqn:Hv; [by rewrite Hlt|].
    apply num_leb_total in Hlt.
    by rewrite (num_leb_trans _ _ _ Hlt lo_le_hi) in Hv.
  - intros ->. by rewrite lo_le_hi.
Qed.

(** Clamping twice is clamping once. *)
Lemma clamp_idempotent (v : number) :
  clamp (clamp v lo hi) lo hi = clamp v lo hi.
Proof. apply clamp_spec, clamp_within. Qed.
End Clamp.

Lemma clamp_choice (v lo hi : number) :
  clamp v lo hi = v \/ clamp v lo hi = lo \/ clamp v lo hi = hi.
Proof.
  unfold clamp, Math_max, Math_min.
  destruct (num_leb v hi); [destruct (num_leb lo v)|destruct (num_leb lo hi)]; auto.
Qed.

Lemma clamp_truthy (v : number) : truthy_number (clamp v (Finite 1) (Finite 4)) = true.
Proof.
  destruct (clamp_within (Finite 1) (Finite 4) eq_refl v) as [H _].
  destruct (clamp v (Finite 1) (Finite 4)) as [|q|]; try done.
  simpl. unfold num_le in H. simpl in H. apply Qle_bool_iff in H.
  destruct (Qeq_bool q 0) eqn:E; [|done].
  apply Qeq_bool_iff in E. rewrite E in H. by apply Qle_bool_iff in H.
Qed.

(** ** Facts about request bodies *)

Ltac key_neq := by vm_compute.

Ltac lookup_lit :=
  repeat first
    [ rewrite lookup_insert_eq
    | rewrite lookup_insert_ne by key_neq
    | rewrite lookup_empty ].

Lemma setClamped_same (k : jsstring) (v : option number) (min max : number)
    (body : object) :
  setClamped k v min max body !! k =
  match v with
  | Some x => Some (JNum (clamp x min max))
  | None => body !! k
  end.
Proof. destruct v; simpl; [apply lookup_insert_eq|done]. Qed.

Lemma setClamped_other (k k' : jsstring) (v : option number) (min max : number)
    (body : object) :
  k <> k' -> setClamped k v min max body !! k' = body !! k'.
Proof. intros H. destruct v; simpl; [by apply lookup_insert_ne|done]. Qed.

Ltac lookup_body :=
  repeat first
    [ rewrite setClamped_same
    | rewrite setClamped_other by key_neq
    | rewrite lookup_insert_eq
    | rewrite lookup_insert_ne by key_neq
    | rewrite lookup_empty ].



(** ** Properties of the request builders *)

(** C5, as stated, fails: a request whose [negative_prompt] is the empty
    string has the field, yet the body built for SiliconFlow has no
    [negative_prompt]. *)
Lemma siliconFlowRequest_negative_counterexample :
  req_extra (withExtra (lit "negative_prompt") (JStr []) catRequest)
    !! lit "negative_prompt" = Some (JStr []) /\
  siliconFlowRequest (withExtra (lit "negative_prompt") (JStr []) catRequest) catPayload
    !! lit "negative_prompt" = None.
Proof. split; reflexivity. Qed.

(** C5, amended. In the body built for SiliconFlow, [batch_size] is the
    requested count clamped to the range 1 to 4, the count being 1 when none
    is given (so a count of 10 gives 4); each optional field is set on its
    own: [negative_prompt] is passed on as it is when it is a non-empty
    string and left out when it is the empty string, [seed] is clamped to 0
    to 9999999999, [num_inference_steps] to 1 to 100, [guidance_scale] to 0 to
    20 and [cfg] to one tenth to 20, each when it is present as a number. *)
Theorem siliconFlowRequest_normalises
    (requestBody : OpenAIRequest) (payload : ProviderPayload) :
  let body := siliconFlowRequest requestBody payload in
  body !! lit "batch_size" =
    Some (JNum (clamp (default (Finite 1) (req_n requestBody)) (Finite 1) (Finite 4))) /\
  body !! lit "negative_prompt" =
    match extraString requestBody (lit "negative_prompt") with
    | Some s => if decide (s = []) then None else Some (JStr s)
    | None => None
    end /\
  body !! lit "seed" =
    (fun v => JNum (clamp v (Finite 0) (Finite 9999999999))) <$> req_seed requestBody /\
  body !! lit "num_inference_steps" =
    (fun v => JNum (clamp v (Finite 1) (Finite 100))) <$>
      extraNumber requestBody (lit "num_inference_steps") /\
  body !! lit "guidance_scale" =
    (fun v => JNum (clamp v (Finite 0) (Finite 20))) <$>
      extraNumber requestBody (lit "guidance_scale") /\
  body !! lit "cfg" =
    (fun v => JNum (clamp v one_tenth (Finite 20))) <$>
      extraNumber requestBody (lit "cfg") /\
  (forall v, within (Finite 1) (Finite 4) (clamp v (Finite 1) (Finite 4))) /\
  (forall v, within (Finite 0) (Finite 9999999999)
               (clamp v (Finite 0) (Finite 9999999999))) /\
  (forall v, within (Finite 1) (Finite 100) (clamp v (Finite 1) (Finite 100))) /\
  (forall v, within (Finite 0) (Finite 20) (clamp v (Finite 0) (Finite 20))) /\
  (forall v, within one_tenth (Finite 20) (clamp v one_tenth (Finite 20))) /\
  siliconFlowRequest catRequest catPayload !! lit "batch_size" = Some (JNum (Finite 1)) /\
  siliconFlowRequest (withCount 10 catRequest) catPayload !! lit "batch_size" =
    Some (JNum (Finite 4)).
Proof.
  cbv zeta.
  assert (Hbody :
    siliconFlowRequest requestBody payload !! lit "batch_size" =
      Some (JNum (clamp (default (Finite 1) (req_n requestBody)) (Finite 1) (Finite 4))) /\
    siliconFlowRequest requestBody payload !! lit "negative_prompt" =
      match extraString requestBody (lit "negative_prompt") with
      | Some s => if decide (s = []) then None else Some (JStr s)
      | None => None
      end /\
    siliconFlowRequest requestBody payload !! lit "seed" =
      (fun v => JNum (clamp v (Finite 0) (Finite 9999999999))) <$> req_seed requestBody /\
    siliconFlowRequest requestBody payload !! lit "num_inference_steps" =
      (fun v => JNum (clamp v (Finite 1) (Finite 100))) <$>
        extraNumber requestBody (lit "num_inference_steps") /\
    siliconFlowRequest requestBody payload !! lit "guidance_scale" =
      (fun v => JNum (clamp v (Finite 0) (Finite 20))) <$>
        extraNumber requestBody (lit "guidance_scale") /\
    siliconFlowRequest requestBody payload !! lit "cfg" =
      (fun v => JNum (clamp v one_tenth (Finite 20))) <$>
        extraNumber requestBody (lit "cfg")).
  { unfold siliconFlowRequest; cbv zeta.
    destruct (dataUrls payload);
      destruct (extraString requestBody (lit "negative_prompt")) as [[|c s]|];
      cbn [truthy_string]; repeat split; lookup_body;
      try done;
      try (by destruct (req_seed requestBody));
      by destruct (extraNumber requestBody _). }
  destruct Hbody as (H1 & H2 & H3 & H4 & H5 & H6).
  repeat split; try assumption; by apply clamp_within.
Qed.

(** C6, as stated, fails on two requests.  A caller that asks for a count of
    two and a half gets that count as [max_images], which is in the range but
    is not an integer (its reduced denominator is 2); a caller that asks for
    a count of 0 asked for a count, yet the body turns sequential generation
    off and carries no maximum. *)
Lemma arkRequest_count_counterexample :
  req_n (withCount (5 # 2) catRequest) = Some (Finite (5 # 2)) /\
  arkRequest (withCount (5 # 2) catRequest) catPayload
    !! lit "sequential_image_generation_options" =
    Some (JObj {[ lit "max_images" := JNum (Finite (5 # 2)) ]}) /\
  Qden (Qred (5 # 2)) = 2%positive /\
  req_n (withCount 0 catRequest) = Some (Finite 0) /\
  arkRequest (withCount 0 catRequest) catPayload !! lit "sequential_image_generation" =
    Some (JStr (lit "disabled")) /\
  arkRequest (withCount 0 catRequest) catPayload
    !! lit "sequential_image_generation_options" = None.
Proof. repeat split; reflexivity. Qed.

(** C6, amended. In the body built for Ark, a requested count other than 0
    is clamped to the range 1 to 4 without rounding (it stays as it is inside
    the range and becomes the bound it passed outside), and the body asks for
    sequential generation, "auto", with the clamped count as [max_images];
    without a requested count the body turns sequential generation off and
    carries no maximum.  A count of 0 is falsy, so the test on
    [requestBody.n] reads it as no count. *)
Theorem arkRequest_count (requestBody : OpenAIRequest) (payload : ProviderPayload) :
  let body := arkRequest requestBody payload in
  let mode := body !! lit "sequential_image_generation" in
  let options := body !! lit "sequential_image_generation_options" in
  match req_n requestBody with
  | Some n =>
      if truthy_number n then
        mode = Some (JStr (lit "auto")) /\
        options =
          Some (JObj {[ lit "max_images" := JNum (clamp n (Finite 1) (Finite 4)) ]}) /\
        within (Finite 1) (Finite 4) (clamp n (Finite 1) (Finite 4)) /\
        (clamp n (Finite 1) (Finite 4) = n \/
         clamp n (Finite 1) (Finite 4) = Finite 1 \/
         clamp n (Finite 1) (Finite 4) = Finite 4)
      else mode = Some (JStr (lit "disabled")) /\ options = None
  | None => mode = Some (JStr (lit "disabled")) /\ options = None
  end.
Proof.
  cbv zeta. unfold arkRequest, arkCount. cbv zeta.
  destruct (req_n requestBody) as [n|]; [destruct (truthy_number n)|];
    cbn [from_option]; rewrite ?clamp_truthy.
  - split; [by lookup_lit|]. split; [by lookup_lit|].
    split; [by apply clamp_within|apply clamp_choice].
  - split; by lookup_lit.
  - split; by lookup_lit.
Qed.

(** The request of the specification's first end-to-end example: a lone user
    message "a cat" and no model gives Ark's default model, the prompt, the
    default size, the seed -1 and no sequential generation. *)
Example arkRequest_cat :
  coerceMessagePayload (req_messages catRequest) = Returned catPayload /\
  detectProvider (req_model catRequest) = ark /\
  arkRequest catRequest catPayload !! lit "prompt" = Some (JStr (lit "a cat")) /\
  arkRequest catRequest catPayload !! lit "size" = Some (JStr (lit "1024x1024")) /\
  arkRequest catRequest catPayload !! lit "seed" = Some (JNum (Finite (-1))) /\
  arkRequest catRequest catPayload !! lit "sequential_image_generation" =
    Some (JStr (lit "disabled")).
Proof. repeat split; reflexivity. Qed.

(** ** Facts about the normalisers *)

Lemma data_uri_truthy (payload : jsstring) :
  truthy_string (lit "data:image/png;base64," ++ payload) = true.
Proof. reflexivity. Qed.

Lemma data_uri_prefix (payload : jsstring) :
  lit "data:image/png;base64," `prefix_of` lit "data:image/png;base64," ++ payload.
Proof. by exists payload. Qed.

Lemma arkImage_url (img : value) : image_url <$> arkImage img = spec_imageUrl img.
Proof.
  unfold arkImage, imageUrl, spec_imageUrl.
  destruct (getField img (lit "url")) as [[| | |url| |]|];
    try (destruct (getField img (lit "b64_json")) as [[| | |b64| |]|];
         by rewrite ?data_uri_truthy).
  by destruct url.
Qed.

Lemma siliconFlowImage_url (img : value) :
  image_url <$> siliconFlowImage img = spec_imageUrl img.
Proof.
  unfold siliconFlowImage, imageUrl, spec_imageUrl.
  destruct (getField img (lit "url")) as [[| | |url| |]|];
    try (destruct (getField img (lit "b64_json")) as [[| | |b64| |]|];
         by rewrite ?data_uri_truthy).
  by destruct url.
Qed.

Lemma omap_image_url (f : value -> option GeneratedImage) (items : list value) :
  (forall img, image_url <$> f img = spec_imageUrl img) ->
  image_url <$> omap f items = omap spec_imageUrl items.
Proof.
  intros Hf. induction items as [|img items IH]; [done|].
  cbn [omap list_omap]. rewrite <- Hf.
  destruct (f img); cbn [fmap option_fmap option_map list_fmap]; by rewrite ?IH.
Qed.

Lemma openAIResponse_created (uuid : jsstring) (result : CallResult) :
  getField (openAIResponse uuid result) (lit "created") = Some (JNum (created result)).
Proof.
  unfold openAIResponse, getField, setOptional. cbv zeta.
  destruct (usage result); by lookup_lit.
Qed.

(** ** Properties of the response normaliser *)

(** C7, as stated, fails: an entry whose [url] is the empty string has a
    [url] that is present and a string, and a base64 payload besides, yet
    both normalisers drop it. *)
Lemma mapImages_empty_url_counterexample :
  getField emptyUrlEntry (lit "url") = Some (JStr []) /\
  getField emptyUrlEntry (lit "b64_json") = Some (JStr (lit "AAAA")) /\
  mapImages arkImage (arkResponseOf [emptyUrlEntry]) (lit "data") = [] /\
  mapImages siliconFlowImage (siliconFlowResponseOf [emptyUrlEntry]) (lit "images") = [].
Proof. repeat split; reflexivity. Qed.

(** C7, amended. For every entry of either provider's result list the URL of
    the image is, in this order: the [url] property when it is a non-empty
    string; when [url] is not a string, the [b64_json] string wrapped as
    "data:image/png;base64,<payload>"; an entry with neither, or whose [url]
    is the empty string, is dropped, the others keep their order, and nothing
    is thrown. *)
Theorem mapImages_decodes (response : value) :
  image_url <$> mapImages arkImage response (lit "data") =
    match getField response (lit "data") with
    | Some (JArr entries) => omap spec_imageUrl entries
    | _ => []
    end /\
  image_url <$> mapImages siliconFlowImage response (lit "images") =
    match getField response (lit "images") with
    | Some (JArr entries) => omap spec_imageUrl entries
    | _ => []
    end /\
  image_url <$> mapImages arkImage (arkResponseOf [base64Entry]) (lit "data") =
    [lit "data:image/png;base64,AAAA"] /\
  image_url <$>
    mapImages siliconFlowImage (siliconFlowResponseOf [remoteEntry]) (lit "images") =
    [lit "https://x/1.png"] /\
  image_url <$>
    mapImages arkImage (arkResponseOf [JNull; remoteEntry; JObj ∅; base64Entry])
      (lit "data") =
    [lit "https://x/1.png"; lit "data:image/png;base64,AAAA"].
Proof.
  split; [|split; [|repeat split; reflexivity]].
  - unfold mapImages.
    destruct (getField response (lit "data")) as [[| | | |entries|]|]; try done.
    apply omap_image_url, arkImage_url.
  - unfold mapImages.
    destruct (getField response (lit "images")) as [[| | | |entries|]|]; try done.
    apply omap_image_url, siliconFlowImage_url.
Qed.

(** C8, as stated, fails: a provider that answers 200 with the empty object
    sends no image list, yet neither call throws; each returns a result with
    no image, and the adapter answers 200. *)
Lemma callArk_no_list_counterexample :
  getField (JObj ∅) (lit "data") = None /\
  getField (JObj ∅) (lit "images") = None /\
  callArk emptyObjectNetwork 0 (lit "key") catRequest catPayload =
    Returned (arkResult catRequest (JObj ∅) 0) /\
  data (arkResult catRequest (JObj ∅) 0) = [] /\
  callSiliconFlow emptyObjectNetwork 0 (lit "key") catRequest catPayload =
    Returned (siliconFlowResult catRequest (JObj ∅) 0) /\
  data (siliconFlowResult catRequest (JObj ∅) 0) = [] /\
  status (chatCompletionResponse (lit "id")
            (callArk emptyObjectNetwork 0 (lit "key") catRequest catPayload)) = 200 /\
  status (chatCompletionResponse (lit "id")
            (callSiliconFlow emptyObjectNetwork 0 (lit "key") catRequest catPayload)) = 200.
Proof. repeat split; reflexivity. Qed.

(** C8, amended. The normaliser never fails: whenever the provider answers
    with a success status and a JSON body, whatever the body holds, the call
    returns a result and the adapter answers 200; when the body has no image
    list the result has no image. *)
Theorem provider_call_returns
    (fetch : network) (now : Z) (apiKey uuid : jsstring)
    (requestBody : OpenAIRequest) (payload : ProviderPayload) (arkData response : value) :
  let arkRes := fetch ARK_API_URL apiKey (arkRequest requestBody payload) in
  let sfRes := fetch SILICONFLOW_API_URL apiKey (siliconFlowRequest requestBody payload) in
  res_ok arkRes = true -> res_json arkRes = Parsed arkData ->
  res_ok sfRes = true -> res_json sfRes = Parsed response ->
  callArk fetch now apiKey requestBody payload =
    Returned (arkResult requestBody arkData now) /\
  callSiliconFlow fetch now apiKey requestBody payload =
    Returned (siliconFlowResult requestBody response now) /\
  status (chatCompletionResponse uuid
            (callArk fetch now apiKey requestBody payload)) = 200 /\
  status (chatCompletionResponse uuid
            (callSiliconFlow fetch now apiKey requestBody payload)) = 200 /\
  match getField arkData (lit "data") with
  | Some (JArr _) => True
  | _ => data (arkResult requestBody arkData now) = []
  end /\
  match getField response (lit "images") with
  | Some (JArr _) => True
  | _ => data (siliconFlowResult requestBody response now) = []
  end.
Proof.
  cbv zeta. intros HokA HjsonA HokB HjsonB.
  unfold callArk, callSiliconFlow, afterFetch.
  rewrite HokA, HjsonA, HokB, HjsonB. cbn [negb chatCompletionResponse status].
  repeat split.
  - unfold arkResult, mapImages. cbn [data].
    by destruct (getField arkData (lit "data")) as [[| | | | |]|].
  - unfold siliconFlowResult, mapImages. cbn [data].
    by destruct (getField response (lit "images")) as [[| | | | |]|].
Qed.

Lemma provider_call_returns_witness :
  (res_ok (emptyObjectNetwork ARK_API_URL (lit "key") (arkRequest catRequest catPayload))
     = true /\
   res_json (emptyObjectNetwork ARK_API_URL (lit "key") (arkRequest catRequest catPayload))
     = Parsed (JObj ∅) /\
   res_ok (emptyObjectNetwork SILICONFLOW_API_URL (lit "key")
             (siliconFlowRequest catRequest catPayload)) = true /\
   res_json (emptyObjectNetwork SILICONFLOW_API_URL (lit "key")
               (siliconFlowRequest catRequest catPayload)) = Parsed (JObj ∅)) /\
  callArk emptyObjectNetwork 0 (lit "key") catRequest catPayload =
    Returned (arkResult catRequest (JObj ∅) 0) /\
  callSiliconFlow emptyObjectNetwork 0 (lit "key") catRequest catPayload =
    Returned (siliconFlowResult catRequest (JObj ∅) 0).
Proof.
  split; [repeat split; reflexivity|].
  pose proof (provider_call_returns emptyObjectNetwork 0 (lit "key") (lit "id")
                catRequest catPayload (JObj ∅) (JObj ∅)
                eq_refl eq_refl eq_refl eq_refl) as (HA & HB & _).
  split; [exact HA|exact HB].
Defined.

(** C9, as stated, fails: a SiliconFlow response that carries a numeric
    [created] of its own is given the time of the clock all the same. *)
Lemma siliconFlowResult_created_counterexample :
  getField datedResponse (lit "created") = Some (JNum (Finite 1700000000)) /\
  created (siliconFlowResult catRequest datedResponse 1800000000123) =
    Finite 1800000000.
Proof. split; reflexivity. Qed.

(** C9, amended. For Ark the creation time of the result, and of the
    completion sent back, is the [created] of the provider's response when
    that is a number and the time of the clock otherwise; for SiliconFlow it
    is always the time of the clock. *)
Theorem result_created (uuid : jsstring) (requestBody : OpenAIRequest)
    (response : value) (now : Z) :
  created (arkResult requestBody response now) =
    match getField response (lit "created") with
    | Some (JNum c) => c
    | _ => nowSeconds now
    end /\
  created (siliconFlowResult requestBody response now) = nowSeconds now /\
  getField (openAIResponse uuid (arkResult requestBody response now)) (lit "created") =
    Some (JNum match getField response (lit "created") with
               | Some (JNum c) => c
               | _ => nowSeconds now
               end) /\
  getField (openAIResponse uuid (siliconFlowResult requestBody response now))
    (lit "created") = Some (JNum (nowSeconds now)).
Proof.
  split; [done|]. split; [done|]. split; by rewrite openAIResponse_created.
Qed.

(** ** Further properties of the message interpreter *)

Lemma trimStart_fixed (s : jsstring) :
  (forall c rest, s = c :: rest -> isWhiteSpace c = false) -> trimStart s = s.
Proof.
  destruct s as [|c s]; [done|]. intros H. simpl. by rewrite (H c s eq_refl).
Qed.

Lemma trim_idempotent (s : jsstring) : trim (trim s) = trim s.
Proof.
  destruct (trim_strips s) as (_ & _ & _ & _ & _ & Hhead & Hlast).
  unfold trim at 1. rewrite (trimStart_fixed (trim s)) by exact Hhead.
  unfold trimEnd. rewrite trimStart_fixed; [apply rev_involutive|].
  intros c rest E. apply (Hlast c (rev rest)).
  rewrite <- (rev_involutive (trim s)), E. done.
Qed.

Lemma readChunk_text (p : ProviderPayload) (chunk : object) :
  prompt (readChunk p chunk) = from_option trim (prompt p) (textOf chunk).
Proof.
  unfold readChunk. rewrite readImage_prompt. unfold readText, textOf.
  destruct (chunk !! lit "text") as [[| | |text| |]|]; try done.
  by destruct (is_literal (chunk !! lit "type") (lit "text")).
Qed.

Lemma foldl_readChunk_text (chunks : list object) (p : ProviderPayload) :
  prompt (foldl readChunk p chunks) =
  from_option trim (prompt p) (last (omap textOf chunks)).
Proof.
  revert p. induction chunks as [|c chunks IH]; intros p; [done|].
  cbn [foldl omap list_omap]. rewrite IH, readChunk_text.
  destruct (textOf c) as [t|]; [|done].
  rewrite last_cons. by destruct (last (omap textOf chunks)).
Qed.

(** The prompt a message gives is empty or is some text trimmed. *)
Lemma ownPayload_prompt (m : ChatMessage) :
  prompt (ownPayload m) = [] \/ exists s, prompt (ownPayload m) = trim s.
Proof.
  unfold ownPayload. destruct (content m) as [s|chunks]; cbn [readContent prompt].
  - right. by exists s.
  - rewrite foldl_readChunk_text.
    destruct (last (omap textOf chunks)) as [t|]; [right; by exists t|by left].
Qed.

(** Every history either gives no prompt at all, and the extraction throws,
    or is cut at its most recent message that gives one. *)
Lemma coerceMessagePayload_cases (messages : list ChatMessage) :
  (Forall gives_no_prompt messages /\
   coerceMessagePayload messages = Thrown (Error promptErrorMessage)) \/
  (exists older m newer,
     messages = older ++ m :: newer /\ gives_prompt m /\ Forall gives_no_prompt newer /\
     coerceMessagePayload messages =
     Returned
       {| prompt := prompt (ownPayload m);
          dataUrls := userDataUrls (reverse newer) ++ dataUrls (ownPayload m);
          httpImages := userHttpImages (reverse newer) ++ httpImages (ownPayload m) |}).
Proof.
  assert (Hdec : Forall gives_no_prompt (reverse messages) \/
                 Exists gives_prompt (reverse messages)).
  { induction (reverse messages) as [|m l [IH|IH]].
    - left. apply Forall_nil_2.
    - destruct (gives_prompt_dec m) as [Hm|Hm].
      + right. by apply Exists_cons_hd.
      + left. by apply Forall_cons_2.
    - right. by apply Exists_cons_tl. }
  destruct Hdec as [Hnone|Hsome].
  - left. rewrite Forall_reverse in Hnone.
    split; [done|by apply coerceMessagePayload_none].
  - right. destruct (first_prompt _ Hsome) as (l1 & c & l2 & Hrev & Hl1 & Hc).
    assert (Hmessages : messages = reverse l2 ++ c :: reverse l1).
    { rewrite <- (reverse_involutive messages), Hrev.
      by rewrite reverse_app, reverse_cons, <- app_assoc. }
    exists (reverse l2), c, (reverse l1).
    split; [done|]. split; [done|]. split; [by apply Forall_reverse|].
    rewrite Hmessages at 1. apply coerceMessagePayload_cut; [done|].
    by apply Forall_reverse.
Qed.

Lemma gives_prompt_not_none (m : ChatMessage) :
  gives_prompt m -> gives_no_prompt m -> False.
Proof. intros [Hu Hp] Hnone. by apply Hp, Hnone. Qed.

(** On a history at the declared types the extraction throws exactly when no
    user message gives a non-empty prompt, and returns a payload exactly when
    one does. *)
Lemma coerceMessagePayload_throws_iff (messages : list ChatMessage) :
  (coerceMessagePayload messages = Thrown (Error promptErrorMessage) <->
   Forall gives_no_prompt messages) /\
  ((exists p, coerceMessagePayload messages = Returned p) <->
   Exists gives_prompt messages) /\
  (Forall gives_no_prompt messages \/ Exists gives_prompt messages).
Proof.
  destruct (coerceMessagePayload_cases messages)
    as [[Hnone E]|(older & m & newer & Hm & Hgives & Hnewer & E)].
  - split; [by split|]. split; [|by left]. split.
    + intros [p Hp]. by rewrite E in Hp.
    + intros Hex. apply Exists_exists in Hex as (m & Hin & Hm).
      rewrite Forall_forall in Hnone.
      destruct (gives_prompt_not_none m Hm (Hnone m Hin)).
  - assert (Hex : Exists gives_prompt messages).
    { rewrite Hm. apply Exists_app. right. by apply Exists_cons_hd. }
    split; [|split; [|by right]].
    + split; [intros E'; by rewrite E in E'|].
      intros Hnone. apply Exists_exists in Hex as (x & Hin & Hx).
      rewrite Forall_forall in Hnone.
      destruct (gives_prompt_not_none x Hx (Hnone x Hin)).
    + split; [done|]. intros _. by eexists.
Qed.

(** X2. A payload that is returned has a prompt that is not empty and that
    neither starts nor ends with white space: trimming it again changes
    nothing. *)
Theorem coerceMessagePayload_prompt_trimmed
    (messages : list ChatMessage) (p : ProviderPayload) :
  coerceMessagePayload messages = Returned p ->
  prompt p <> [] /\ trim (prompt p) = prompt p /\
  (forall c rest, prompt p = c :: rest -> isWhiteSpace c = false) /\
  (forall c front, prompt p = front ++ [c] -> isWhiteSpace c = false).
Proof.
  intros E.
  destruct (coerceMessagePayload_cases messages)
    as [[_ E']|(older & m & newer & _ & [_ Hne] & _ & E')];
    rewrite E' in E; [done|]. injection E as <-. cbn [prompt].
  destruct (ownPayload_prompt m) as [H|[s H]]; [done|]. rewrite H.
  split; [by rewrite <- H|]. split; [apply trim_idempotent|].
  destruct (trim_strips s) as (_ & _ & _ & _ & _ & Hhead & Hlast). by split.
Qed.

Lemma coerceMessagePayload_prompt_trimmed_witness :
  coerceMessagePayload pictureHistory = Returned picturePayload /\
  prompt picturePayload <> [] /\ trim (prompt picturePayload) = prompt picturePayload.
Proof.
  assert (E : coerceMessagePayload pictureHistory = Returned picturePayload)
    by reflexivity.
  split; [exact E|].
  destruct (coerceMessagePayload_prompt_trimmed pictureHistory picturePayload E)
    as (H1 & H2 & _).
  by split.
Defined.

Lemma readChunk_sorted (p : ProviderPayload) (chunk : object) :
  sorted_images p -> sorted_images (readChunk p chunk).
Proof.
  intros [Hd Hh]. unfold sorted_images.
  rewrite readChunk_dataUrls, readChunk_httpImages.
  destruct (imageReferenceUrl chunk) as [u|]; image_simpl.
  destruct (isDataUrl u) eqn:E; image_simpl; split; try done;
    apply Forall_app; split; try done; by apply Forall_singleton.
Qed.

Lemma readContent_sorted (p : ProviderPayload) (c : MessageContent) :
  sorted_images p -> sorted_images (readContent p c).
Proof.
  destruct c as [s|chunks]; [done|]. cbn [readContent].
  revert p. induction chunks as [|chunk chunks IH]; intros p Hp; [done|].
  cbn [foldl]. by apply IH, readChunk_sorted.
Qed.

Lemma scanMessages_sorted (l : list ChatMessage) (p : ProviderPayload) :
  sorted_images p -> sorted_images (scanMessages l p).
Proof.
  revert p. induction l as [|m l IH]; intros p Hp; [done|].
  cbn [scanMessages]. destruct (bool_decide (role m = lit "user")); [|by apply IH].
  destruct (truthy_string (prompt (readContent p (content m))));
    [|apply IH]; by apply readContent_sorted.
Qed.

(** X3. In a payload that is returned every URL of [dataUrls] starts with
    "data:" and no URL of [httpImages] does. *)
Theorem coerceMessagePayload_sorted (messages : list ChatMessage) (p : ProviderPayload) :
  coerceMessagePayload messages = Returned p ->
  Forall (fun u => lit "data:" `prefix_of` u) (dataUrls p) /\
  Forall (fun u => ~ lit "data:" `prefix_of` u) (httpImages p).
Proof.
  unfold coerceMessagePayload.
  destruct (truthy_string (prompt (scanMessages (reverse messages) emptyPayload)));
    [|done].
  intros [= <-].
  destruct (scanMessages_sorted (reverse messages) emptyPayload) as [Hd Hh].
  { split; apply Forall_nil_2. }
  split; eapply Forall_impl; try eassumption; intros u Hu; unfold isDataUrl in Hu.
  - by apply startsWith_prefix.
  - intros Hp. apply startsWith_prefix in Hp. congruence.
Qed.

Lemma coerceMessagePayload_sorted_witness :
  coerceMessagePayload pictureHistory = Returned picturePayload /\
  Forall (fun u => lit "data:" `prefix_of` u) (dataUrls picturePayload) /\
  Forall (fun u => ~ lit "data:" `prefix_of` u) (httpImages picturePayload).
Proof.
  assert (E : coerceMessagePayload pictureHistory = Returned picturePayload)
    by reflexivity.
  split; [exact E|].
  exact (coerceMessagePayload_sorted pictureHistory picturePayload E).
Defined.

Lemma scanMessages_users (l : list ChatMessage) (p : ProviderPayload) :
  scanMessages (filter is_user l) p = scanMessages l p.
Proof.
  revert p. induction l as [|m l IH]; intros p; [done|].
  destruct (decide (is_user m)) as [Hu|Hu].
  - rewrite filter_cons_True by done. cbn [scanMessages].
    rewrite bool_decide_eq_true_2 by done.
    by destruct (truthy_string (prompt (readContent p (content m)))).
  - rewrite filter_cons_False by done. cbn [scanMessages].
    by rewrite bool_decide_eq_false_2.
Qed.

(** X4. Messages whose role is not "user" play no part: leaving them out of
    the history gives the same outcome. *)
Theorem coerceMessagePayload_users_only (messages : list ChatMessage) :
  coerceMessagePayload (filter is_user messages) = coerceMessagePayload messages.
Proof.
  unfold coerceMessagePayload.
  by rewrite <- filter_reverse, scanMessages_users.
Qed.

(** X5. Once a history gives a payload, what came before it plays no part:
    the same payload is returned with any older messages in front. *)
Theorem coerceMessagePayload_older_ignored
    (older messages : list ChatMessage) (p : ProviderPayload) :
  coerceMessagePayload messages = Returned p ->
  coerceMessagePayload (older ++ messages) = Returned p.
Proof.
  intros E.
  destruct (coerceMessagePayload_cases messages)
    as [[_ E']|(o & m & newer & -> & Hm & Hnewer & E')];
    rewrite E' in E; [done|].
  rewrite <- E, app_assoc. by apply coerceMessagePayload_cut.
Qed.

Lemma coerceMessagePayload_older_ignored_witness :
  coerceMessagePayload [userText (lit "a cat")] = Returned catPayload /\
  coerceMessagePayload (pictureHistory ++ [userText (lit "a cat")]) = Returned catPayload.
Proof.
  assert (E : coerceMessagePayload [userText (lit "a cat")] = Returned catPayload)
    by reflexivity.
  split; [exact E|].
  exact (coerceMessagePayload_older_ignored pictureHistory _ _ E).
Defined.

(** X6. Within one message the text chunks overwrite one another: the prompt
    after the chunks is the last text chunk trimmed, even when that is empty,
    and is what it was before when there is no text chunk. *)
Theorem readContent_last_text (payload : ProviderPayload) (chunks : list object) :
  prompt (readContent payload (ContentArray chunks)) =
    from_option trim (prompt payload) (last (omap textOf chunks)) /\
  (forall text, textOf (textChunk text) = Some text) /\
  (forall url, textOf (imageChunk url) = None) /\
  coerceMessagePayload
    [userText (lit "a dog"); userChunks [textChunk (lit "a cat"); textChunk (lit " ")]] =
    Returned {| prompt := lit "a dog"; dataUrls := []; httpImages := [] |}.
Proof.
  split; [apply foldl_readChunk_text|]. repeat split; reflexivity.
Qed.

(** X7. When the last message of a history is a user message whose content
    is a string that is not blank, the payload is that string trimmed and no
    image, whatever the earlier messages hold. *)
Theorem coerceMessagePayload_last_string (older : list ChatMessage) (s : jsstring) :
  trim s <> [] ->
  coerceMessagePayload (older ++ [userText s]) =
  Returned {| prompt := trim s; dataUrls := []; httpImages := [] |}.
Proof.
  intros Hs.
  by rewrite (coerceMessagePayload_cut older [] (userText s));
    [|split|apply Forall_nil_2].
Qed.

Lemma coerceMessagePayload_last_string_witness :
  trim (lit " a cat ") <> [] /\
  coerceMessagePayload (pictureHistory ++ [userText (lit " a cat ")]) =
  Returned {| prompt := lit "a cat"; dataUrls := []; httpImages := [] |}.
Proof.
  assert (Hs : trim (lit " a cat ") <> []) by (by vm_compute).
  split; [exact Hs|].
  exact (coerceMessagePayload_last_string pictureHistory (lit " a cat ") Hs).
Defined.

(** ** Further properties of clamping *)

(** X8. With bounds in order, a clamped value lies between them, a value
    between them is left as it is, and clamping twice is clamping once. *)
Theorem clamp_saturates (v lo hi : number) :
  num_le lo hi ->
  within lo hi (clamp v lo hi) /\
  clamp (clamp v lo hi) lo hi = clamp v lo hi /\
  (within lo hi v -> clamp v lo hi = v).
Proof.
  intros H. split; [by apply clamp_within|].
  split; [by apply clamp_idempotent|]. by apply clamp_spec.
Qed.

Lemma clamp_saturates_witness :
  num_le one_tenth (Finite 20) /\
  within one_tenth (Finite 20) (clamp (Finite 50) one_tenth (Finite 20)) /\
  clamp (clamp (Finite 50) one_tenth (Finite 20)) one_tenth (Finite 20) =
    clamp (Finite 50) one_tenth (Finite 20).
Proof.
  assert (H : num_le one_tenth (Finite 20)) by reflexivity.
  split; [exact H|].
  destruct (clamp_saturates (Finite 50) one_tenth (Finite 20) H) as (H1 & H2 & _).
  by split.
Defined.

(** X9. Clamping keeps the order: a larger value is never clamped to a
    smaller result, whatever the bounds. *)
Theorem clamp_monotone (v w lo hi : number) :
  num_le v w -> num_le (clamp v lo hi) (clamp w lo hi).
Proof.
  unfold num_le, clamp, Math_max, Math_min. intros Hvw.
  destruct (num_leb v hi) eqn:Hv, (num_leb w hi) eqn:Hw.
  - destruct (num_leb lo v) eqn:Hlv, (num_leb lo w) eqn:Hlw;
      try done; try apply num_leb_refl.
    by rewrite (num_leb_trans _ _ _ Hlv Hvw) in Hlw.
  - destruct (num_leb lo v) eqn:Hlv, (num_leb lo hi) eqn:Hlh;
      try done; try apply num_leb_refl.
    by rewrite (num_leb_trans _ _ _ Hlv Hv) in Hlh.
  - by rewrite (num_leb_trans _ _ _ Hvw Hw) in Hv.
  - apply num_leb_refl.
Qed.

Lemma clamp_monotone_witness :
  num_le (Finite 2) (Finite 7) /\
  num_le (clamp (Finite 2) (Finite 1) (Finite 4)) (clamp (Finite 7) (Finite 1) (Finite 4)).
Proof.
  assert (H : num_le (Finite 2) (Finite 7)) by reflexivity.
  split; [exact H|].
  exact (clamp_monotone (Finite 2) (Finite 7) (Finite 1) (Finite 4) H).
Defined.

(** ** Further properties of the request builders *)

Ltac split_keys H :=
  repeat (apply not_elem_of_cons in H; destruct H as [? H]).

Ltac lookup_other :=
  repeat first
    [ rewrite setClamped_other by done
    | rewrite lookup_insert_ne by done
    | rewrite lookup_empty ].

Lemma arkRequest_image (requestBody : OpenAIRequest) (payload : ProviderPayload) :
  arkRequest requestBody payload !! lit "image" =
  Some (JArr (JStr <$> httpImages payload)).
Proof.
  unfold arkRequest. cbv zeta.
  destruct (arkCount requestBody) as [n|]; [destruct (truthy_number n)|];
    by lookup_lit.
Qed.

Lemma siliconFlowRequest_image (requestBody : OpenAIRequest) (payload : ProviderPayload) :
  siliconFlowRequest requestBody payload !! lit "image" =
  JStr <$> head (dataUrls payload).
Proof.
  unfold siliconFlowRequest. cbv zeta.
  destruct (dataUrls payload) as [|first rest]; [|by rewrite lookup_insert_eq].
  destruct (extraString requestBody (lit "negative_prompt")) as [[|c s]|];
    cbn [truthy_string]; by lookup_body.
Qed.

Lemma arkRequest_model (requestBody : OpenAIRequest) (payload : ProviderPayload) :
  arkRequest requestBody payload !! lit "model" = Some (JStr (arkModel requestBody)).
Proof.
  unfold arkRequest. cbv zeta.
  destruct (arkCount requestBody) as [n|]; [destruct (truthy_number n)|];
    by lookup_lit.
Qed.

Lemma siliconFlowRequest_model (requestBody : OpenAIRequest) (payload : ProviderPayload) :
  siliconFlowRequest requestBody payload !! lit "model" =
  Some (JStr (siliconFlowModel requestBody)).
Proof.
  unfold siliconFlowRequest. cbv zeta.
  destruct (dataUrls payload);
    destruct (extraString requestBody (lit "negative_prompt")) as [[|c s]|];
    cbn [truthy_string]; by lookup_body.
Qed.

(** X10. The body sent to Ark holds the model (the caller's, or the default
    one), the prompt, the remote images and only them, the size (1024x1024 by
    default), the seed as the caller gave it, not clamped (-1 by default),
    base64 as the response format, and no streaming and no watermark; it has
    no key besides these and the two of sequential generation, so no other
    field of the request reaches Ark. *)
Theorem arkRequest_fields (requestBody : OpenAIRequest) (payload : ProviderPayload) :
  let body := arkRequest requestBody payload in
  body !! lit "model" =
    Some (JStr (default (lit "doubao-seedream-4-0-250828") (req_model requestBody))) /\
  body !! lit "prompt" = Some (JStr (prompt payload)) /\
  body !! lit "image" = Some (JArr (JStr <$> httpImages payload)) /\
  body !! lit "size" = Some (JStr (default (lit "1024x1024") (req_size requestBody))) /\
  body !! lit "seed" = Some (JNum (default (Finite (-1)) (req_seed requestBody))) /\
  body !! lit "response_format" = Some (JStr (lit "b64_json")) /\
  body !! lit "stream" = Some (JBool false) /\
  body !! lit "watermark" = Some (JBool false) /\
  forall k, k ∉ arkKeys -> body !! k = None.
Proof.
  cbv zeta. unfold arkRequest, arkModel. cbv zeta.
  destruct (arkCount requestBody) as [n|]; [destruct (truthy_number n)|];
    (repeat split; [by lookup_lit..|]);
    intros k Hk; unfold arkKeys in Hk; split_keys Hk; by lookup_other.
Qed.

(** X11. The body sent to SiliconFlow holds the model (the caller's, or
    "Qwen/Qwen-Image"), the prompt, and as [image_size] the caller's [size],
    else the caller's [image_size] when it is a string, else 1024x1024 for a
    "Kwai-Kolors/" model and 1328x1328 for any other; [image] is the first
    embedded image when there is one; the body has no key besides the ten
    known ones, so no remote image and no other field of the request reaches
    SiliconFlow. *)
Theorem siliconFlowRequest_fields (requestBody : OpenAIRequest) (payload : ProviderPayload) :
  let body := siliconFlowRequest requestBody payload in
  let model := default (lit "Qwen/Qwen-Image") (req_model requestBody) in
  body !! lit "model" = Some (JStr model) /\
  body !! lit "prompt" = Some (JStr (prompt payload)) /\
  body !! lit "image_size" =
    Some (JStr match req_size requestBody with
               | Some size => size
               | None =>
                   match extraString requestBody (lit "image_size") with
                   | Some image_size => image_size
                   | None =>
                       if startsWith model (lit "Kwai-Kolors/")
                       then lit "1024x1024" else lit "1328x1328"
                   end
               end) /\
  body !! lit "image" = JStr <$> head (dataUrls payload) /\
  forall k, k ∉ siliconFlowKeys -> body !! k = None.
Proof.
  cbv zeta. split; [apply siliconFlowRequest_model|].
  split; [|split; [|split; [apply siliconFlowRequest_image|]]].
  - unfold siliconFlowRequest. cbv zeta.
    destruct (dataUrls payload);
      destruct (extraString requestBody (lit "negative_prompt")) as [[|c s]|];
      cbn [truthy_string]; by lookup_body.
  - unfold siliconFlowRequest, siliconFlowModel. cbv zeta.
    destruct (dataUrls payload);
      destruct (extraString requestBody (lit "negative_prompt")) as [[|c s]|];
      cbn [truthy_string]; lookup_body;
      destruct (req_size requestBody);
      try destruct (extraString requestBody (lit "image_size")); done.
  - intros k Hk. unfold siliconFlowKeys in Hk. split_keys Hk.
    unfold siliconFlowRequest. cbv zeta.
    destruct (dataUrls payload);
      destruct (extraString requestBody (lit "negative_prompt")) as [[|c s]|];
      cbn [truthy_string]; by lookup_other.
Qed.

(** X12. With a payload that the extraction returned, the images sent to Ark
    are the remote ones and none of them starts with "data:", and the image
    sent to SiliconFlow, when there is one, starts with "data:". *)
Theorem extracted_images_by_provider
    (messages : list ChatMessage) (requestBody : OpenAIRequest) (payload : ProviderPayload) :
  coerceMessagePayload messages = Returned payload ->
  arkRequest requestBody payload !! lit "image" =
    Some (JArr (JStr <$> httpImages payload)) /\
  Forall (fun u => ~ lit "data:" `prefix_of` u) (httpImages payload) /\
  match siliconFlowRequest requestBody payload !! lit "image" with
  | Some sent => exists u, sent = JStr u /\ head (dataUrls payload) = Some u /\
                           lit "data:" `prefix_of` u
  | None => dataUrls payload = []
  end.
Proof.
  intros E. split; [apply arkRequest_image|].
  unfold coerceMessagePayload in E.
  destruct (truthy_string (prompt (scanMessages (reverse messages) emptyPayload)));
    [|done].
  injection E as <-.
  destruct (scanMessages_sorted (reverse messages) emptyPayload) as [Hd Hh].
  { split; apply Forall_nil_2. }
  split.
  - eapply Forall_impl; [exact Hh|]. intros u Hu Hp.
    apply startsWith_prefix in Hp. unfold isDataUrl in Hu. congruence.
  - rewrite siliconFlowRequest_image.
    destruct (dataUrls (scanMessages (reverse messages) emptyPayload)) as [|u rest];
      [done|].
    exists u. split; [done|]. split; [done|].
    apply Forall_cons in Hd as [Hu _]. by apply startsWith_prefix.
Qed.

Lemma extracted_images_by_provider_witness :
  coerceMessagePayload pictureHistory = Returned picturePayload /\
  arkRequest catRequest picturePayload !! lit "image" =
    Some (JArr [JStr (lit "https://x/1.png")]) /\
  siliconFlowRequest catRequest picturePayload !! lit "image" =
    Some (JStr (lit "data:image/png;base64,AAAA")).
Proof.
  assert (E : coerceMessagePayload pictureHistory = Returned picturePayload)
    by reflexivity.
  split; [exact E|].
  destruct (extracted_images_by_provider pictureHistory catRequest picturePayload E)
    as (H & _ & _).
  split; [exact H|reflexivity].
Defined.

(** X13. The router and the builders agree on the model. A request routed to
    SiliconFlow always names its model, which is the one sent, so the default
    of [callSiliconFlow] is never used by the handler; a request routed to Ark
    is sent with a model that the router would send to Ark as well. *)
Theorem routed_model (requestBody : OpenAIRequest) (payload : ProviderPayload) :
  match detectProvider (req_model requestBody) with
  | siliconflow =>
      exists m, req_model requestBody = Some m /\ siliconflow_model m /\
                siliconFlowRequest requestBody payload !! lit "model" = Some (JStr m)
  | ark =>
      exists m, arkRequest requestBody payload !! lit "model" = Some (JStr m) /\
                detectProvider (Some m) = ark /\ ~ siliconflow_model m
  end.
Proof.
  destruct (detectProvider (req_model requestBody)) eqn:E.
  - exists (arkModel requestBody). split; [apply arkRequest_model|].
    assert (Hark : detectProvider (Some (arkModel requestBody)) = ark).
    { unfold arkModel. by destruct (req_model requestBody). }
    split; [done|]. rewrite <- detectProvider_some. congruence.
  - destruct (req_model requestBody) as [m|] eqn:Em; [|done].
    exists m. split; [done|]. split; [by apply detectProvider_some|].
    rewrite siliconFlowRequest_model. unfold siliconFlowModel. by rewrite Em.
Qed.

(** ** Further properties of the response normaliser *)

Lemma Forall_omap_image (P : GeneratedImage -> Prop)
    (f : value -> option GeneratedImage) (entries : list value) :
  (forall v g, f v = Some g -> P g) -> Forall P (omap f entries).
Proof.
  intros Hf. induction entries as [|v entries IH]; [apply Forall_nil_2|].
  cbn [omap list_omap]. destruct (f v) as [g|] eqn:E; [|done].
  apply Forall_cons_2; [by eapply Hf|done].
Qed.

Lemma length_omap_image (f : value -> option GeneratedImage) (entries : list value) :
  (List.length (omap f entries) <= List.length entries)%nat.
Proof.
  induction entries as [|v entries IH]; [done|].
  cbn [omap list_omap]. destruct (f v); simpl; lia.
Qed.

Lemma arkImage_nonempty (v : value) (g : GeneratedImage) :
  arkImage v = Some g -> image_url g <> [].
Proof.
  unfold arkImage. destruct (imageUrl v) as [[|c url]|]; [done| |done].
  cbn [truthy_string]. by intros [= <-].
Qed.

Lemma siliconFlowImage_nonempty (v : value) (g : GeneratedImage) :
  siliconFlowImage v = Some g -> image_url g <> [] /\ image_size g = None.
Proof.
  unfold siliconFlowImage. destruct (imageUrl v) as [[|c url]|]; [done| |done].
  cbn [truthy_string]. by intros [= <-].
Qed.

(** X14. Every image of a normalised result has a URL that is not empty, for
    either provider, and an image of SiliconFlow never has a size; the
    result never has more images than the provider's list has entries. *)
Theorem mapImages_sound (response : value) :
  Forall (fun g => image_url g <> []) (mapImages arkImage response (lit "data")) /\
  Forall (fun g => image_url g <> [] /\ image_size g = None)
    (mapImages siliconFlowImage response (lit "images")) /\
  match getField response (lit "data") with
  | Some (JArr entries) =>
      (List.length (mapImages arkImage response (lit "data")) <= List.length entries)%nat
  | _ => mapImages arkImage response (lit "data") = []
  end /\
  match getField response (lit "images") with
  | Some (JArr entries) =>
      (List.length (mapImages siliconFlowImage response (lit "images")) <= List.length entries)%nat
  | _ => mapImages siliconFlowImage response (lit "images") = []
  end.
Proof.
  unfold mapImages. repeat split.
  - destruct (getField response (lit "data")) as [[| | | |entries|]|];
      try apply Forall_nil_2.
    apply Forall_omap_image, arkImage_nonempty.
  - destruct (getField response (lit "images")) as [[| | | |entries|]|];
      try apply Forall_nil_2.
    apply Forall_omap_image, siliconFlowImage_nonempty.
  - destruct (getField response (lit "data")) as [[| | | |entries|]|]; try done.
    apply length_omap_image.
  - destruct (getField response (lit "images")) as [[| | | |entries|]|]; try done.
    apply length_omap_image.
Qed.

Lemma urlOfImageJSON_imageJSON (g : GeneratedImage) :
  urlOfImageJSON (imageJSON g) = Some (image_url g).
Proof.
  unfold urlOfImageJSON, imageJSON, getField, setOptional.
  destruct (image_size g); cbn [fmap option_fmap option_map]; by lookup_lit.
Qed.

Lemma firstMessage_openAIResponse (uuid : jsstring) (result : CallResult) :
  exists message : object,
    firstMessage (openAIResponse uuid result) = Some (JObj message) /\
    message !! lit "images" = Some (JArr (imageJSON <$> data result)) /\
    message !! lit "metadata" =
      (if truthy (timings result) then
         Some (JObj (setOptional (lit "timings") (timings result)
                       (setOptional (lit "seed") (result_seed result) ∅)))
       else None).
Proof.
  eexists. split.
  - unfold firstMessage, openAIResponse, getField. cbv zeta.
    unfold setOptional at 1. destruct (usage result); lookup_lit; reflexivity.
  - destruct (truthy (timings result)); cbn [setOptional]; split; by lookup_lit.
Qed.

Lemma completionImageUrls_openAIResponse (uuid : jsstring) (result : CallResult) :
  completionImageUrls (openAIResponse uuid result) = image_url <$> data result.
Proof.
  unfold completionImageUrls.
  destruct (firstMessage_openAIResponse uuid result) as (message & -> & Himages & _).
  cbn [getField]. rewrite Himages. clear Himages.
  induction (data result) as [|g images IH]; [done|].
  cbn [fmap list_fmap omap list_omap]. by rewrite urlOfImageJSON_imageJSON, IH.
Qed.

(** X15. The images survive the way back: what a client reads at
    [choices[0].message.images[i].image_url.url] in the completion is the
    list of the URLs of the normalised result, in the same order. *)
Theorem openAIResponse_images (uuid : jsstring) (result : CallResult) :
  completionImageUrls (openAIResponse uuid result) = image_url <$> data result.
Proof. apply completionImageUrls_openAIResponse. Qed.

(** X16. What is passed on besides the images. The completion of an Ark
    call carries the [usage] of Ark's response as it is and never any
    [metadata]; the completion of a SiliconFlow call never carries [usage],
    and carries [metadata], with the provider's [timings] and [seed], only
    when [timings] is truthy: a [seed] without [timings] is dropped. *)
Theorem openAIResponse_passthrough
    (uuid : jsstring) (requestBody : OpenAIRequest) (response : value) (now : Z) :
  let arkCompletion := openAIResponse uuid (arkResult requestBody response now) in
  let sfCompletion := openAIResponse uuid (siliconFlowResult requestBody response now) in
  getField arkCompletion (lit "usage") = getField response (lit "usage") /\
  (firstMessage arkCompletion ≫= fun m => getField m (lit "metadata")) = None /\
  getField sfCompletion (lit "usage") = None /\
  (firstMessage sfCompletion ≫= fun m => getField m (lit "metadata")) =
    (if truthy (getField response (lit "timings")) then
       Some (JObj (setOptional (lit "timings") (getField response (lit "timings"))
                     (setOptional (lit "seed") (getField response (lit "seed")) ∅)))
     else None).
Proof.
  cbv zeta. split; [|split; [|split]].
  - unfold openAIResponse, getField at 1, setOptional at 1. cbv zeta. cbn [usage arkResult].
    destruct (getField response (lit "usage")); by lookup_lit.
  - destruct (firstMessage_openAIResponse uuid (arkResult requestBody response now))
      as (message & -> & _ & Hm).
    cbn [mbind option_bind getField]. by rewrite Hm.
  - unfold openAIResponse, getField, setOptional at 1. cbv zeta.
    cbn [usage siliconFlowResult]. by lookup_lit.
  - destruct (firstMessage_openAIResponse uuid
                (siliconFlowResult requestBody response now))
      as (message & -> & _ & Hm).
    cbn [mbind option_bind getField]. by rewrite Hm.
Qed.

(** ** Properties of the bearer key *)

Lemma afterLetters_app (letters scheme rest : jsstring) :
  Forall2 (fun l c => sameLetter l c = true) letters scheme ->
  afterLetters letters (scheme ++ rest) = Some rest.
Proof.
  intros H. induction H as [|l c letters scheme Hlc _ IH]; [done|].
  cbn [afterLetters app]. by rewrite Hlc.
Qed.

Lemma trimStart_app_white (ws s : jsstring) :
  Forall (fun c => isWhiteSpace c = true) ws -> trimStart (ws ++ s) = trimStart s.
Proof.
  intros H. induction H as [|c ws Hc _ IH]; [done|].
  cbn [app trimStart]. by rewrite Hc.
Qed.

Lemma trim_trimStart (s : jsstring) : trim (trimStart s) = trim s.
Proof. unfold trim. by rewrite trimStart_idempotent. Qed.

(** X17. A header made of the scheme "Bearer", in any mix of upper and lower
    case, at least one white space, and a key gives the key trimmed. *)
Theorem readHeaderApiKey_bearer (scheme ws key : jsstring) :
  Forall2 (fun l c => sameLetter l c = true) (lit "bearer") scheme ->
  ws <> [] -> Forall (fun c => isWhiteSpace c = true) ws ->
  readHeaderApiKey (Some (scheme ++ ws ++ key)) = Some (trim key).
Proof.
  intros Hscheme Hne Hws. unfold readHeaderApiKey, stripBearer.
  rewrite (afterLetters_app _ _ _ Hscheme).
  destruct ws as [|c ws]; [done|]. apply Forall_cons in Hws as [Hc Hws].
  cbn [app]. rewrite Hc, (trimStart_app_white _ _ Hws), trim_trimStart.
  destruct scheme as [|b scheme]; [by apply Forall2_nil_inv_r in Hscheme|done].
Qed.

Lemma readHeaderApiKey_bearer_witness :
  (Forall2 (fun l c => sameLetter l c = true) (lit "bearer") (lit "BeArEr") /\
   lit "  " <> [] /\ Forall (fun c => isWhiteSpace c = true) (lit "  ")) /\
  readHeaderApiKey (Some (lit "BeArEr" ++ lit "  " ++ lit "sk-123")) =
  Some (lit "sk-123").
Proof.
  assert (Hscheme :
    Forall2 (fun l c => sameLetter l c = true) (lit "bearer") (lit "BeArEr"))
    by (repeat constructor).
  assert (Hne : lit "  " <> []) by discriminate.
  assert (Hws : Forall (fun c => isWhiteSpace c = true) (lit "  "))
    by (repeat constructor).
  split; [done|].
  exact (readHeaderApiKey_bearer (lit "BeArEr") (lit "  ") (lit "sk-123")
           Hscheme Hne Hws).
Defined.

(** X18. The key read from the header is never surrounded by white space;
    there is none exactly when the header is absent or empty.  A header
    without the scheme is taken whole, trimmed, and so is a header that is
    the scheme alone. *)
Theorem readHeaderApiKey_trimmed (authorization : option jsstring) :
  match readHeaderApiKey authorization with
  | Some key => trim key = key /\ authorization <> None /\ authorization <> Some []
  | None => authorization = None \/ authorization = Some []
  end /\
  (forall raw, afterLetters (lit "bearer") raw = None ->
               readHeaderApiKey (Some raw) = if truthy_string raw then Some (trim raw) else None) /\
  readHeaderApiKey (Some (lit "Bearer")) = Some (lit "Bearer") /\
  readHeaderApiKey (Some (lit "Bearertoken")) = Some (lit "Bearertoken").
Proof.
  split; [|split; [|repeat split; reflexivity]].
  - destruct authorization as [[|c raw]|]; cbn [readHeaderApiKey truthy_string];
      [by right| |by left].
    split; [apply trim_idempotent|done].
  - intros raw H. unfold readHeaderApiKey, stripBearer. by rewrite H.
Qed.

(** ** Properties of the handlers *)










Ltac in_list := repeat first [apply list_elem_of_here | apply list_elem_of_further].

Lemma providerOutcome_fetch (fetch : network) (now : Z) (apiKey : jsstring)
    (requestBody : OpenAIRequest) (payload : ProviderPayload) :
  let p := detectProvider (req_model requestBody) in
  providerOutcome fetch now apiKey requestBody payload =
  afterFetch
    (fun parsed =>
       match p with
       | ark => arkResult requestBody parsed now
       | siliconflow => siliconFlowResult requestBody parsed now
       end)
    (fetch (providerUrl p) apiKey (providerRequest p requestBody payload)).
Proof.
  cbv zeta. unfold providerOutcome.
  by destruct (detectProvider (req_model requestBody)).
Qed.








Lemma providerOutcome_agree (fetch fetch' : network) (now : Z) (apiKey : jsstring)
    (requestBody : OpenAIRequest) (payload : ProviderPayload) :
  (forall key sent,
     fetch (providerUrl (detectProvider (req_model requestBody))) key sent =
     fetch' (providerUrl (detectProvider (req_model requestBody))) key sent) ->
  providerOutcome fetch now apiKey requestBody payload =
  providerOutcome fetch' now apiKey requestBody payload.
Proof. intros H. rewrite !providerOutcome_fetch. cbv zeta. by rewrite H. Qed.

(** X25. One request, one provider: the answer depends on the network only
    through what the provider that the model is routed to answers.  Two
    networks that differ on the other provider only give the same answer. *)
Theorem handleChatCompletions_one_provider
    (fetch fetch' : network) (now : Z) (uuid : jsstring) (env : Environment)
    (req : Request) :
  match http_json req with
  | RequestBody requestBody =>
      forall key sent,
        fetch (providerUrl (detectProvider (req_model requestBody))) key sent =
        fetch' (providerUrl (detectProvider (req_model requestBody))) key sent
  | RequestNotJSON _ => True
  end ->
  handleChatCompletions fetch now uuid env req =
  handleChatCompletions fetch' now uuid env req.
Proof.
  intros H. unfold handleChatCompletions. cbv zeta.
  destruct (negb (bool_decide (http_method req = lit "POST"))); [done|].
  destruct (http_json req) as [requestBody|message]; [|done].
  destruct (req_messages requestBody); [done|].
  destruct (coerceMessagePayload _) as [payload|e]; [|done].
  destruct (orKey _ _) as [apiKey|]; [|done].
  destruct (truthy_string apiKey); [|done].
  f_equal. by apply (providerOutcome_agree fetch fetch').
Qed.

Lemma handleChatCompletions_one_provider_witness :
  (forall key sent,
     arkUpNetwork (providerUrl (detectProvider (req_model catRequest))) key sent =
     arkSilentNetwork (providerUrl (detectProvider (req_model catRequest))) key sent) /\
  arkUpNetwork SILICONFLOW_API_URL [] ∅ <> arkSilentNetwork SILICONFLOW_API_URL [] ∅ /\
  handleChatCompletions arkUpNetwork 0 (lit "id") arkKeyOnly (postChat None catRequest) =
  handleChatCompletions arkSilentNetwork 0 (lit "id") arkKeyOnly (postChat None catRequest).
Proof.
  assert (H : forall key sent,
     arkUpNetwork (providerUrl (detectProvider (req_model catRequest))) key sent =
     arkSilentNetwork (providerUrl (detectProvider (req_model catRequest))) key sent)
    by (intros key sent; reflexivity).
  split; [exact H|]. split; [by vm_compute|].
  exact (handleChatCompletions_one_provider arkUpNetwork arkSilentNetwork 0 (lit "id")
           arkKeyOnly (postChat None catRequest) H).
Defined.

Lemma readRoute_status (head : bool) (pathname : jsstring) (reply : Reply) :
  readRoute head pathname = Some reply -> reply_status reply = 200.
Proof.
  unfold readRoute. cbv zeta.
  repeat (destruct (bool_decide _); cbn [orb]); by intros [= <-].
Qed.

(** X26. Only a request to the chat path whose method is none of OPTIONS, GET
    and HEAD can reach a provider: for every other request the answer of the
    handler depends on the request alone, not on the network, the clock, the
    keys or the identifier, and its status is 200, 404 or 405. *)
Theorem handler_static
    (fetch fetch' : network) (now now' : Z) (uuid uuid' : jsstring)
    (env env' : Environment) (req : Request) :
  http_method req ∈ [lit "OPTIONS"; lit "GET"; lit "HEAD"] \/
  http_pathname req <> chatPath ->
  handler fetch now uuid env req = handler fetch' now' uuid' env' req /\
  reply_status (handler fetch now uuid env req) ∈ [200; 404; 405].
Proof.
  intros H. unfold handler. cbv zeta.
  destruct (bool_decide_reflect (http_method req = lit "OPTIONS")) as [Ho|Ho];
    [split; [done|in_list]|].
  destruct (bool_decide_reflect (http_method req = lit "GET")) as [Hg|Hg];
    destruct (bool_decide_reflect (http_method req = lit "HEAD")) as [Hh|Hh];
    cbn [orb].
  1-3: destruct (readRoute _ (http_pathname req)) as [reply|] eqn:Hroute;
    [split; [done|rewrite (readRoute_status _ _ _ Hroute); in_list]|].
  all: destruct (bool_decide_reflect (http_pathname req = lit "/v1/models"));
    [split; [done|in_list]|].
  all: destruct (bool_decide_reflect (http_pathname req = lit "/v1/chat/completions"))
    as [Hp|Hp]; [|split; [done|in_list]].
  1-3: unfold readRoute in Hroute; rewrite Hp in Hroute; by vm_compute in Hroute.
  destruct H as [H|H]; [|done].
  rewrite !elem_of_cons in H. destruct H as [?|[?|[?|H]]]; try done.
  by apply elem_of_nil in H.
Qed.

Lemma handler_static_witness :
  (http_method getModels ∈ [lit "OPTIONS"; lit "GET"; lit "HEAD"] \/
   http_pathname getModels <> chatPath) /\
  handler rateLimitedNetwork 0 [] noKeys getModels =
  handler emptyObjectNetwork 1 (lit "id") arkKeyOnly getModels /\
  reply_status (handler rateLimitedNetwork 0 [] noKeys getModels) = 200.
Proof.
  assert (H : http_method getModels ∈ [lit "OPTIONS"; lit "GET"; lit "HEAD"] \/
              http_pathname getModels <> chatPath)
    by (right; by vm_compute).
  split; [exact H|].
  destruct (handler_static rateLimitedNetwork emptyObjectNetwork 0 1 [] (lit "id")
              noKeys arkKeyOnly getModels H) as [E _].
  split; [exact E|reflexivity].
Defined.

(** The model list that GET /v1/models serves agrees with the router: every
    model of the list is owned by the provider that [detectProvider] sends
    its identifier to. *)
Lemma models_agree_with_router
    (fetch : network) (now : Z) (uuid : jsstring) (env : Environment) :
  handler fetch now uuid env getModels =
    {| reply_status := 200;
       reply_body := JSONBody (JObj {[ lit "object" := JStr (lit "list");
                                       lit "data" := JArr AVAILABLE_MODELS ]}) |} /\
  Forall (fun entry =>
            exists id, getField entry (lit "id") = Some (JStr id) /\
                       getField entry (lit "owned_by") =
                         Some (JStr (providerTag (detectProvider (Some id)))))
    AVAILABLE_MODELS.
Proof.
  split; [reflexivity|].
  repeat (apply Forall_cons_2; [eexists; split; reflexivity|]). apply Forall_nil_2.
Qed.

(** ** The message interpreter on any JSON history *)

Lemma readAnyText_object (p : ProviderPayload) (o : object) :
  readAnyText (o !! lit "type") p (JObj o) = readText p o.
Proof.
  unfold readAnyText, readText, getField.
  destruct (o !! lit "text") as [[| | |text| |]|];
    by destruct (is_literal (o !! lit "type") (lit "text")).
Qed.

Lemma readAnyImage_object (p : ProviderPayload) (o : object) :
  readAnyImage (o !! lit "type") p (JObj o) = readImage p o.
Proof.
  unfold readAnyImage, readImage, getField.
  destruct (o !! lit "image_url") as [[| | | | |image_url]|];
    by destruct (is_literal (o !! lit "type") (lit "image_url")).
Qed.

Lemma readAnyChunk_object (rev : revision) (p : ProviderPayload) (o : object) :
  readAnyChunk rev p (JObj o) = Returned (readChunk p o).
Proof.
  unfold readAnyChunk, readChunk. cbn [chunkType bindCompletion getField].
  by rewrite readAnyText_object, readAnyImage_object.
Qed.

(** A chunk that is neither an object nor [null] has no [type], and nothing
    is done with it; [sf-adapter.ts] treats [null] the same way. *)
Lemma readAnyChunk_other (rev : revision) (p : ProviderPayload) (chunk : value) :
  asObject chunk = None -> (rev = laterRevision -> isNull chunk = false) ->
  readAnyChunk rev p chunk = Returned p.
Proof.
  intros Ho Hnull. destruct chunk; try done.
  destruct rev; [by specialize (Hnull eq_refl)|done].
Qed.

Lemma readAnyChunks_sfAdapter (p : ProviderPayload) (chunks : list value) :
  readAnyChunks sfAdapter p chunks = Returned (foldl readChunk p (omap asObject chunks)).
Proof.
  revert p. induction chunks as [|chunk chunks IH]; intros p; [done|].
  cbn [readAnyChunks omap list_omap].
  destruct (asObject chunk) as [o|] eqn:E.
  - destruct chunk; try done. injection E as ->.
    rewrite readAnyChunk_object. cbn [bindCompletion foldl]. apply IH.
  - rewrite readAnyChunk_other by done. cbn [bindCompletion]. apply IH.
Qed.

Lemma readAnyChunks_laterRevision (p : ProviderPayload) (chunks : list value) :
  readAnyChunks laterRevision p chunks =
  if existsb isNull chunks then Thrown (nullPropertyError (lit "type"))
  else Returned (foldl readChunk p (omap asObject chunks)).
Proof.
  revert p. induction chunks as [|chunk chunks IH]; intros p; [done|].
  cbn [readAnyChunks omap list_omap existsb].
  destruct (isNull chunk) eqn:Hnull; [by destruct chunk|]. cbn [orb].
  destruct (asObject chunk) as [o|] eqn:E.
  - destruct chunk; try done. injection E as ->.
    rewrite readAnyChunk_object. cbn [bindCompletion foldl]. apply IH.
  - rewrite readAnyChunk_other by done. cbn [bindCompletion]. apply IH.
Qed.

Lemma omap_asObject (chunks : list object) : omap asObject (JObj <$> chunks) = chunks.
Proof. induction chunks as [|o chunks IH]; [done|]. cbn. by rewrite IH. Qed.

Lemma existsb_isNull_objects (chunks : list object) :
  existsb isNull (JObj <$> chunks) = false.
Proof. induction chunks as [|o chunks IH]; [done|]. cbn. exact IH. Qed.

Lemma readAnyChunks_objects (rev : revision) (p : ProviderPayload) (chunks : list object) :
  readAnyChunks rev p (JObj <$> chunks) = Returned (foldl readChunk p chunks).
Proof.
  destruct rev.
  - by rewrite readAnyChunks_laterRevision, existsb_isNull_objects, omap_asObject.
  - by rewrite readAnyChunks_sfAdapter, omap_asObject.
Qed.

Lemma readAnyContent_typed (rev : revision) (p : ProviderPayload) (c : MessageContent) :
  readAnyContent rev p (Some (contentJSON c)) = Returned (readContent p c).
Proof. destruct c as [s|chunks]; [done|]. apply readAnyChunks_objects. Qed.

Lemma messageJSON_fields (m : ChatMessage) :
  getField (messageJSON m) (lit "role") = Some (JStr (role m)) /\
  getField (messageJSON m) (lit "content") = Some (contentJSON (content m)).
Proof. unfold messageJSON, getField. split; by lookup_lit. Qed.

Lemma scanAny_cons (rev : revision) (m : value) (older : list value)
    (p : ProviderPayload) :
  isNull m = false ->
  scanAny rev (m :: older) p =
  if is_literal (getField m (lit "role")) (lit "user") then
    bindCompletion (readAnyContent rev p (getField m (lit "content")))
      (fun payload =>
         if truthy_string (prompt payload) then Returned payload
         else scanAny rev older payload)
  else scanAny rev older p.
Proof. by destruct m. Qed.

Lemma scanAny_typed (rev : revision) (l : list ChatMessage) (p : ProviderPayload) :
  scanAny rev (messageJSON <$> l) p = Returned (scanMessages l p).
Proof.
  revert p. induction l as [|m l IH]; intros p; [done|].
  rewrite fmap_cons, scanAny_cons by done. cbn [scanMessages].
  destruct (messageJSON_fields m) as [-> ->]. cbn [is_literal].
  destruct (bool_decide (role m = lit "user")); [|apply IH].
  rewrite readAnyContent_typed. cbn [bindCompletion].
  destruct (truthy_string (prompt (readContent p (content m)))); [done|apply IH].
Qed.

(** On a history at the declared types either revision does what
    [coerceMessagePayload] on the records does. *)
Lemma coerceAnyPayload_typed (rev : revision) (messages : list ChatMessage) :
  coerceAnyPayload rev (messageJSON <$> messages) = coerceMessagePayload messages.
Proof.
  unfold coerceAnyPayload, coerceMessagePayload.
  by rewrite <- fmap_reverse, scanAny_typed.
Qed.

Lemma readAnyContent_array (rev : revision) (p : ProviderPayload) (chunks : list value) :
  readAnyContent rev p (Some (JArr chunks)) =
  match rev with
  | laterRevision =>
      if existsb isNull chunks then Thrown (nullPropertyError (lit "type"))
      else Returned (readContent p (ContentArray (omap asObject chunks)))
  | sfAdapter => Returned (readContent p (ContentArray (omap asObject chunks)))
  end.
Proof.
  destruct rev; cbn [readAnyContent readContent].
  - apply readAnyChunks_laterRevision.
  - apply readAnyChunks_sfAdapter.
Qed.

Lemma readAnyContent_agree (p : ProviderPayload) (content : option value) :
  readAnyContent laterRevision p content = readAnyContent sfAdapter p content \/
  readAnyContent laterRevision p content = Thrown (nullPropertyError (lit "type")).
Proof.
  destruct content as [[| | | |chunks|]|]; try by left.
  rewrite !readAnyContent_array. destruct (existsb isNull chunks); [by right|by left].
Qed.

Lemma readAnyContent_thrown (rev : revision) (p : ProviderPayload)
    (content : option value) (e : exception) :
  readAnyContent rev p content = Thrown e ->
  rev = laterRevision /\ e = nullPropertyError (lit "type").
Proof.
  destruct content as [[| | | |chunks|]|]; try done.
  rewrite readAnyContent_array. destruct rev; [|done].
  destruct (existsb isNull chunks); [|done]. by intros [= <-].
Qed.

Lemma scanAny_agree (l : list value) (p : ProviderPayload) :
  scanAny laterRevision l p = scanAny sfAdapter l p \/
  scanAny laterRevision l p = Thrown (nullPropertyError (lit "type")).
Proof.
  revert p. induction l as [|m l IH]; intros p; [by left|].
  destruct (isNull m) eqn:Hnull; [destruct m; try done; by left|].
  rewrite !scanAny_cons by done.
  destruct (is_literal (getField m (lit "role")) (lit "user")); [|apply IH].
  destruct (readAnyContent_agree p (getField m (lit "content"))) as [-> | ->];
    [|by right].
  destruct (readAnyContent sfAdapter p (getField m (lit "content"))) as [p'|e];
    cbn [bindCompletion]; [|by left].
  destruct (truthy_string (prompt p')); [by left|apply IH].
Qed.

Lemma scanAny_thrown (rev : revision) (l : list value) (p : ProviderPayload)
    (e : exception) :
  scanAny rev l p = Thrown e ->
  e = nullPropertyError (lit "role") \/
  (rev = laterRevision /\ e = nullPropertyError (lit "type")).
Proof.
  revert p. induction l as [|m l IH]; intros p; [done|].
  destruct (isNull m) eqn:Hnull.
  { destruct m; try done. cbn [scanAny]. intros [= <-]. by left. }
  rewrite scanAny_cons by done.
  destruct (is_literal (getField m (lit "role")) (lit "user")); [|apply IH].
  destruct (readAnyContent rev p (getField m (lit "content"))) as [p'|e'] eqn:E;
    cbn [bindCompletion].
  - destruct (truthy_string (prompt p')); [done|apply IH].
  - intros [= <-]. right. by apply (readAnyContent_thrown _ _ _ _ E).
Qed.

(** C3. The later revision breaks the claim on a chunk that is [null]: it
    reads [(chunk as ...).type] without optional chaining, so the chunk is
    not skipped but throws a [TypeError], and the text chunk after it is
    never read; the handler answers 500.  [sf-adapter.ts] reads
    [chunk?.type], skips the chunk and returns the prompt.  In general the later revision throws whenever a
    chunk array that it reads holds a [null]; otherwise, and always in
    [sf-adapter.ts], the chunks that are not objects are passed over and the
    objects are read in order. *)
Theorem coerceMessagePayload_null_chunk :
  coerceAnyPayload laterRevision nullThenText = Thrown (nullPropertyError (lit "type")) /\
  coerceAnyPayload sfAdapter nullThenText =
    Returned {| prompt := lit "hi"; dataUrls := []; httpImages := [] |} /\
  (forall payload chunks,
     readAnyContent laterRevision payload (Some (JArr chunks)) =
     if existsb isNull chunks then Thrown (nullPropertyError (lit "type"))
     else Returned (readContent payload (ContentArray (omap asObject chunks)))) /\
  (forall payload chunks,
     readAnyContent sfAdapter payload (Some (JArr chunks)) =
     Returned (readContent payload (ContentArray (omap asObject chunks)))) /\
  (forall uuid,
     chatCompletionResponse uuid (Thrown (nullPropertyError (lit "type"))) =
     serverError (lit "Cannot read properties of null (reading 'type')")).
Proof.
  split; [reflexivity|]. split; [reflexivity|].
  split; [|split]; try (intros payload chunks; by rewrite readAnyContent_array).
  intros uuid. reflexivity.
Qed.

(** C4. The later revision breaks the claim on a user message whose only
    chunk is [null], content that is neither text nor an image: the read of
    the chunk's type throws a [TypeError] before the test of the prompt is
    reached, so the error is not the prompt error.  [sf-adapter.ts] throws
    the prompt error there.  The defect is the one of C3. *)
Theorem coerceMessagePayload_null_alone :
  coerceAnyPayload laterRevision nullAlone = Thrown (nullPropertyError (lit "type")) /\
  coerceAnyPayload sfAdapter nullAlone = Thrown (Error promptErrorMessage) /\
  nullPropertyError (lit "type") <> Error promptErrorMessage.
Proof. split; [reflexivity|]. split; [reflexivity|]. by vm_compute. Qed.

(** X1. What the extraction throws.  On a history at the declared types, in
    either revision, it throws the prompt error exactly when no user message
    gives a non-empty prompt and returns a payload exactly when one does.  On
    any JSON history a returned prompt is never empty, and the only other
    things thrown are the [TypeError] of a message that is [null] and, in the
    later revision only, the [TypeError] of a chunk that is [null]. *)
Theorem coerceAnyPayload_outcome (rev : revision) :
  (forall messages : list ChatMessage,
     (coerceAnyPayload rev (messageJSON <$> messages) = Thrown (Error promptErrorMessage)
        <-> Forall gives_no_prompt messages) /\
     ((exists p, coerceAnyPayload rev (messageJSON <$> messages) = Returned p)
        <-> Exists gives_prompt messages)) /\
  (forall messages : list value,
     match coerceAnyPayload rev messages with
     | Returned p => prompt p <> []
     | Thrown e =>
         e = Error promptErrorMessage \/ e = nullPropertyError (lit "role") \/
         (rev = laterRevision /\ e = nullPropertyError (lit "type"))
     end) /\
  coerceAnyPayload rev [JNull] = Thrown (nullPropertyError (lit "role")).
Proof.
  split; [|split; [|by destruct rev]].
  - intros messages. rewrite coerceAnyPayload_typed.
    destruct (coerceMessagePayload_throws_iff messages) as (H1 & H2 & _). by split.
  - intros messages. unfold coerceAnyPayload.
    destruct (scanAny rev (reverse messages) emptyPayload) as [p|e] eqn:E;
      cbn [bindCompletion].
    + destruct (prompt p) eqn:Hp; cbn [truthy_string]; [by left|].
      by rewrite Hp.
    + right. by apply (scanAny_thrown _ _ _ _ E).
Qed.

(** X27. Where the two revisions agree.  On any JSON history the two
    revisions of [coerceMessagePayload] give the same outcome unless the
    later one throws the [TypeError] of a chunk that is [null]; on a history
    at the declared types they always agree, and give what the function on
    the records gives.  They differ on a [null] chunk before a text chunk. *)
Theorem coerceAnyPayload_revisions :
  (forall messages : list value,
     coerceAnyPayload laterRevision messages = coerceAnyPayload sfAdapter messages \/
     coerceAnyPayload laterRevision messages = Thrown (nullPropertyError (lit "type"))) /\
  (forall (rev : revision) (messages : list ChatMessage),
     coerceAnyPayload rev (messageJSON <$> messages) = coerceMessagePayload messages) /\
  coerceAnyPayload laterRevision nullThenText = Thrown (nullPropertyError (lit "type")) /\
  coerceAnyPayload sfAdapter nullThenText =
    Returned {| prompt := lit "hi"; dataUrls := []; httpImages := [] |}.
Proof.
  split; [|split; [apply coerceAnyPayload_typed|split; reflexivity]].
  intros messages. unfold coerceAnyPayload.
  destruct (scanAny_agree (reverse messages) emptyPayload) as [-> | ->];
    [by left|by right].
Qed.
